(** * Replay buffer of [policy/generic_replay_buffer.py]

    A shallow embedding of the [ReplayBuffer] class and of the part of
    numpy it relies on, followed by the properties of the encode/decode
    pair, of the evicting insert and of sampling.

    Modelling choices.
    - Python integers are [Z]; the dimensions of an existing numpy array
      are [nat] (numpy never builds an array with a negative dimension).
    - An n-dimensional array is its shape together with its elements in
      row-major order.  The two-dimensional arrays of the class (the
      queue and the encoded [sarses]) are lists of rows with a column count.
    - The class is modelled twice.  First over an element type [V] with a
      distinguished [zero] (what [np.zeros] writes), which is the class on
      arrays of one dtype: shapes, slices, errors and the moves of the
      rows.  Then, in [Typed], over arrays of [bool], [int64] and
      [float64] with their dtype: [np.concatenate] converts to the common
      dtype and the queue converts to [float64].  The second is proved to
      be the first on the converted elements.
    - A method is a function from the object to the object after the call
      and either a value or the exception raised: an exception does not undo
      the assignments made before it.
    - [np.random.choice(a, n, replace=False)] is [permutation(a)[:n]]; the
      permutation drawn is an argument of [sample]. *)

From Stdlib Require Import ZArith List Lia Bool Permutation.
From Stdlib Require Import Floats.SpecFloat.
Import ListNotations.
Local Open Scope Z_scope.

(** ** Exceptions and results *)

Inductive exn : Type :=
| ReplayBufferError   (* raised by the class itself *)
| ValueError          (* numpy: reshape, broadcast, negative dimensions *)
| IndexError          (* [x.shape[0]] on a 0-d array, index out of bounds *)
| NameError           (* a name that is bound nowhere *)
| TypeError.          (* a call with the wrong arguments *)

Inductive result (A : Type) : Type :=
| Ok (a : A)
| Raise (e : exn).
Arguments Ok {A} a.
Arguments Raise {A} e.

Definition rbind {A B} (r : result A) (k : A -> result B) : result B :=
  match r with
  | Ok a => k a
  | Raise e => Raise e
  end.

Notation "x <- c1 ;; c2" := (rbind c1 (fun x => c2))
  (at level 61, c1 at next level, right associativity).

Definition is_ok {A} (r : result A) : bool :=
  match r with Ok _ => true | Raise _ => false end.

(** ** Python slices on lists *)

(** A slice bound [i] on a sequence of length [len]: negative bounds count
    from the end, and the result is clipped to [0, len]. *)
Definition norm_index (len i : Z) : Z :=
  if i <? 0 then Z.max (i + len) 0 else Z.min i len.

(** [slice_bounds len lo hi] is the first index and the number of elements
    of [x[lo:hi]] for [len(x) = len]; [None] is an omitted bound. *)
Definition slice_bounds (len : nat) (lo hi : option Z) : nat * nat :=
  let start := match lo with
               | None => 0
               | Some i => norm_index (Z.of_nat len) i
               end in
  let stop := match hi with
              | None => Z.of_nat len
              | Some i => norm_index (Z.of_nat len) i
              end in
  (Z.to_nat start, Z.to_nat (stop - start)).

Definition py_slice {A} (lo hi : option Z) (l : list A) : list A :=
  let '(start, cnt) := slice_bounds (length l) lo hi in
  firstn cnt (skipn start l).

(** [rows_of n w l] cuts the first [n * w] elements of [l] into [n] rows of
    [w] elements. *)
Fixpoint rows_of {A} (n w : nat) (l : list A) : list (list A) :=
  match n with
  | O => []
  | S n' => firstn w l :: rows_of n' w (skipn w l)
  end.

(** Row-wise concatenation of two lists of rows. *)
Fixpoint hcat {A} (xs ys : list (list A)) : list (list A) :=
  match xs, ys with
  | x :: xs', y :: ys' => (x ++ y) :: hcat xs' ys'
  | _, _ => []
  end.

(** ** Arguments of a call *)

(** An integer or a tuple of integers. *)
Inductive pyval : Type :=
| PyInt (z : Z)
| PyTuple (l : list Z).

(** The names the module binds are [np], [functools], [prod],
    [ReplayBufferError] and [ReplayBuffer]: the name [size] has no binding
    there (nor among the builtins). *)
Definition module_size : option Z := None.

(** ** [prod] *)

(** [functools.reduce(lambda x,y: x*y, (1,) + l)] *)
Definition prod (l : list Z) : Z := fold_left Z.mul l 1.

(** [np.random.choice(a, n, replace=False)]: a negative [n], an empty
    population for a non-empty sample and a sample larger than the
    population are refused; otherwise the first [n] entries of the
    permutation of [range(a)] that was drawn. *)
Definition choice (a n : Z) (perm : list nat) : result (list nat) :=
  if n <? 0 then Raise ValueError
  else if (a <=? 0) && negb (n =? 0) then Raise ValueError
  else if a <? n then Raise ValueError
  else Ok (firstn (Z.to_nat n) perm).

Section Model.

Context {V : Type}.
Variable zero : V.

(** ** Arrays *)

Record ndarray : Type := mk_ndarray {
  shape : list nat;
  data : list V
}.

(** [x.size] *)
Definition size (x : ndarray) : nat := fold_right Nat.mul 1%nat (shape x).

(** The representation invariant of an array. *)
Definition wf_ndarray (x : ndarray) : Prop := length (data x) = size x.

(** A two-dimensional array: [mrows] has [x.shape[0]] rows of [ncols]
    elements. *)
Record matrix : Type := mk_matrix {
  ncols : nat;
  mrows : list (list V)
}.

Definition nrows (m : matrix) : nat := length (mrows m).

(** [x.shape[0]] *)
Definition shape0 (x : ndarray) : result nat :=
  match shape x with
  | [] => Raise IndexError
  | d :: _ => Ok d
  end.

(** [np.expand_dims(x, axis=0)] *)
Definition expand_dims0 (x : ndarray) : ndarray :=
  mk_ndarray (1%nat :: shape x) (data x).

(** [x.flatten()] *)
Definition flatten (x : ndarray) : ndarray :=
  mk_ndarray [size x] (data x).

(** The shape [np.reshape] gives to [sz] elements for the requested
    [newshape]: at most one entry may be negative (unknown); the unknown
    entry is [sz] divided by the product of the others, which has to be
    non-zero and to divide [sz]; without an unknown entry the product has
    to be [sz]. *)
Definition resolve_shape (sz : nat) (newshape : list Z) : result (list nat) :=
  let s_known := fold_right Z.mul 1 (filter (fun d => 0 <=? d) newshape) in
  match length (filter (fun d => d <? 0) newshape) with
  | O =>
      if s_known =? Z.of_nat sz then Ok (map Z.to_nat newshape)
      else Raise ValueError
  | S O =>
      if (s_known =? 0) || negb (Z.of_nat sz mod s_known =? 0)
      then Raise ValueError
      else Ok (map (fun d => if d <? 0 then Z.to_nat (Z.of_nat sz / s_known)
                             else Z.to_nat d) newshape)
  | _ => Raise ValueError
  end.

(** [np.reshape(x, (n, -1))], a two-dimensional array. *)
Definition reshape_rows (x : ndarray) (n : nat) : result matrix :=
  shp <- resolve_shape (size x) [Z.of_nat n; -1] ;;
  match shp with
  | [r; c] => Ok (mk_matrix c (rows_of r c (data x)))
  | _ => Raise ValueError
  end.

(** [np.reshape(m, newshape)] for a two-dimensional [m]. *)
Definition reshape_matrix (m : matrix) (newshape : list Z) : result ndarray :=
  shp <- resolve_shape (nrows m * ncols m) newshape ;;
  Ok (mk_ndarray shp (concat (mrows m))).

(** [np.zeros((r, c))], an array of 8-byte elements: a negative dimension,
    a dimension of [2^63] or more, and a byte count of [2^63] or more (the
    dimensions 0 left out of the product) are refused.  The memory of the
    machine is not modelled: there is no [MemoryError]. *)
Definition zeros2 (r c : Z) : result matrix :=
  let nz := fun d : Z => if d =? 0 then 1 else d in
  if (r <? 0) || (c <? 0) then Raise ValueError
  else if (2 ^ 63 <=? r) || (2 ^ 63 <=? c) then Raise ValueError
  else if 2 ^ 63 <=? 8 * nz r * nz c then Raise ValueError
  else Ok (mk_matrix (Z.to_nat c)
             (repeat (repeat zero (Z.to_nat c)) (Z.to_nat r))).

(** [np.concatenate((x, y), axis=-1)] for two-dimensional arrays: the row
    counts have to agree. *)
Definition concatenate2 (x y : matrix) : result matrix :=
  if Nat.eqb (nrows x) (nrows y)
  then Ok (mk_matrix (ncols x + ncols y) (hcat (mrows x) (mrows y)))
  else Raise ValueError.

(** [np.concatenate(xs, axis=-1)] for a non-empty tuple. *)
Fixpoint concatenate (x : matrix) (xs : list matrix) : result matrix :=
  match xs with
  | [] => Ok x
  | y :: ys => xy <- concatenate2 x y ;; concatenate xy ys
  end.

(** [m[lo:hi]] *)
Definition get_rows (m : matrix) (lo hi : option Z) : matrix :=
  mk_matrix (ncols m) (py_slice lo hi (mrows m)).

(** [m[:, lo:hi]] *)
Definition get_cols (m : matrix) (lo hi : option Z) : matrix :=
  mk_matrix (snd (slice_bounds (ncols m) lo hi))
            (map (py_slice lo hi) (mrows m)).

(** Broadcasting of the two-dimensional [v] to [cnt] rows of [w] elements:
    each dimension of [v] has to be the target's or 1, and a dimension of
    1 is repeated. *)
Definition stretch (w : nat) (r : list V) : list V :=
  concat (map (fun x => repeat x w) r).

Definition broadcast (cnt w : nat) (v : matrix) : result (list (list V)) :=
  cols <- (if Nat.eqb (ncols v) w then Ok (mrows v)
           else if Nat.eqb (ncols v) 1 then Ok (map (stretch w) (mrows v))
           else Raise ValueError) ;;
  if Nat.eqb (nrows v) cnt then Ok cols
  else if Nat.eqb (nrows v) 1 then Ok (concat (repeat cols cnt))
  else Raise ValueError.

(** [m[lo:hi] = v] *)
Definition set_rows (m : matrix) (lo hi : option Z) (v : matrix)
  : result matrix :=
  let '(start, cnt) := slice_bounds (nrows m) lo hi in
  rs <- broadcast cnt (ncols m) v ;;
  Ok (mk_matrix (ncols m)
        (firstn start (mrows m) ++ rs ++ skipn (start + cnt) (mrows m))).

(** [m[indices]] for a one-dimensional integer array [indices]. *)
Fixpoint take_rows (rows : list (list V)) (indices : list nat)
  : result (list (list V)) :=
  match indices with
  | [] => Ok []
  | i :: is' =>
      match nth_error rows i with
      | None => Raise IndexError
      | Some r => rs <- take_rows rows is' ;; Ok (r :: rs)
      end
  end.

(** ** The class *)

Record ReplayBuffer : Type := mk_ReplayBuffer {
  _size : Z;
  _contains : Z;
  _s_shape : list Z;
  _s_size : Z;
  _a_shape : list Z;
  _a_size : Z;
  _r_shape : list Z;
  _r_size : Z;
  _d_shape : list Z;
  _d_size : Z;
  _sars_size : Z;
  _queue : matrix
}.

(** A method: the object after the call, and the value returned or the
    exception raised. *)
Definition M (A : Type) : Type := ReplayBuffer -> ReplayBuffer * result A.

Definition ret {A} (a : A) : M A := fun b => (b, Ok a).

Definition lift {A} (r : result A) : M A := fun b => (b, r).

Definition bind {A B} (m : M A) (k : A -> M B) : M B :=
  fun b =>
    match m b with
    | (b', Ok a) => k a b'
    | (b', Raise e) => (b', Raise e)
    end.

Notation "x <~ c1 ;; c2" := (bind c1 (fun x => c2))
  (at level 61, c1 at next level, right associativity).
Notation "c1 ;;; c2" := (bind c1 (fun _ => c2))
  (at level 61, right associativity).

Definition get_self : M ReplayBuffer := fun b => (b, Ok b).

(** Assignments to [self._contains] and [self._queue]. *)
Definition with_contains (b : ReplayBuffer) (c : Z) : ReplayBuffer :=
  mk_ReplayBuffer (_size b) c (_s_shape b) (_s_size b) (_a_shape b)
    (_a_size b) (_r_shape b) (_r_size b) (_d_shape b) (_d_size b)
    (_sars_size b) (_queue b).

Definition with_queue (b : ReplayBuffer) (q : matrix) : ReplayBuffer :=
  mk_ReplayBuffer (_size b) (_contains b) (_s_shape b) (_s_size b)
    (_a_shape b) (_a_size b) (_r_shape b) (_r_size b) (_d_shape b)
    (_d_size b) (_sars_size b) q.

Definition set_contains (c : Z) : M unit :=
  fun b => (with_contains b c, Ok tt).

Definition set_queue (q : matrix) : M unit :=
  fun b => (with_queue b q, Ok tt).

(** The body of [ReplayBuffer.__init__].  It reads a name [size] that is
    not among the parameters of the method (the docstring lists it): [size]
    is what that name is bound to when the body runs.  The call of the
    constructor, with the lookup of the name, is [ReplayBuffer_call]. *)
Definition __init__ (size : Z) (s_shape a_shape r_shape : list Z)
  : result ReplayBuffer :=
  let s_size := prod s_shape in
  let a_size := prod a_shape in
  let r_size := prod r_shape in
  let d_shape := [] in
  let d_size := 1 in
  let sars_size := s_size * 2 + a_size + r_size + d_size in
  q <- zeros2 size sars_size ;;
  Ok (mk_ReplayBuffer size 0 s_shape s_size a_shape a_size r_shape r_size
        d_shape d_size sars_size q).

(** The call [ReplayBuffer(args)] of the constructor.  The signature is
    [__init__(self, s_shape, a_shape, r_shape)]: another number of
    arguments is a [TypeError].  The first statement, [self._size = size],
    looks the name [size] up in the namespace of the module:
    [global_size] is its binding there, if it has one.  A shape that is
    not a tuple makes [(1,) + l] in [prod] a [TypeError]. *)
Definition ReplayBuffer_call (global_size : option Z) (args : list pyval)
  : result ReplayBuffer :=
  match args with
  | [s_shape; a_shape; r_shape] =>
      match global_size with
      | None => Raise NameError
      | Some size =>
          match s_shape, a_shape, r_shape with
          | PyTuple s, PyTuple a, PyTuple r => __init__ size s a r
          | _, _, _ => Raise TypeError
          end
      end
  | _ => Raise TypeError
  end.

Definition should_sample (b : ReplayBuffer) : bool :=
  _size b <=? _contains b.

(** [self._queue[:-n] = self._queue[n:]] *)
Definition _pop (n : Z) : M unit :=
  self <~ get_self ;;
  q <~ lift (set_rows (_queue self) None (Some (- n))
               (get_rows (_queue self) (Some n) None)) ;;
  set_queue q.

(** [self._queue[-sarses_len:] = sarses] *)
Definition _push (sarses : matrix) : M unit :=
  let sarses_len := Z.of_nat (nrows sarses) in
  self <~ get_self ;;
  q <~ lift (set_rows (_queue self) (Some (- sarses_len)) None sarses) ;;
  set_queue q.

(** [_encode_sarses] does not read [self].  The four comparisons of the
    guard are evaluated left to right and stop at the first that differs. *)
Definition _encode_sarses (s a r sp d : ndarray) : result matrix :=
  batch_size <- shape0 s ;;
  a0 <- shape0 a ;;
  if negb (Nat.eqb batch_size a0) then Raise ReplayBufferError else
  r0 <- shape0 r ;;
  if negb (Nat.eqb batch_size r0) then Raise ReplayBufferError else
  sp0 <- shape0 sp ;;
  if negb (Nat.eqb batch_size sp0) then Raise ReplayBufferError else
  d0 <- shape0 d ;;
  if negb (Nat.eqb batch_size d0) then Raise ReplayBufferError else
  s' <- reshape_rows s batch_size ;;
  a' <- reshape_rows a batch_size ;;
  r' <- reshape_rows r batch_size ;;
  sp' <- reshape_rows sp batch_size ;;
  d' <- reshape_rows d batch_size ;;
  concatenate s' [a'; r'; d'; sp'].

(** The tuple [(s, a, r, sp, d)]. *)
Definition sars : Type :=
  (ndarray * ndarray * ndarray * ndarray * ndarray)%type.

Definition _decode_sarses (self : ReplayBuffer) (sarses : matrix)
  : result sars :=
  let s_div := _s_size self in
  let a_div := _a_size self + s_div in
  let r_div := _r_size self + a_div in
  let d_div := _d_size self + r_div in
  let s := get_cols sarses None (Some s_div) in
  let a := get_cols sarses (Some s_div) (Some a_div) in
  let r := get_cols sarses (Some a_div) (Some r_div) in
  let d := get_cols sarses (Some r_div) (Some d_div) in
  let sp := get_cols sarses (Some d_div) None in
  s <- reshape_matrix s (-1 :: _s_shape self) ;;
  a <- reshape_matrix a (-1 :: _a_shape self) ;;
  r <- reshape_matrix r (-1 :: _r_shape self) ;;
  sp <- reshape_matrix sp (-1 :: _s_shape self) ;;
  d <- reshape_matrix d (-1 :: _d_shape self) ;;
  Ok (s, a, r, sp, d).

(** [np.array] is the identity on arrays. *)
Definition store_example_batch (s_arr a_arr r_arr sp_arr done_mask : ndarray)
  : M unit :=
  let a_arr := flatten a_arr in
  let r_arr := flatten r_arr in
  let done_mask := flatten done_mask in
  sarses <~ lift (_encode_sarses s_arr a_arr r_arr sp_arr done_mask) ;;
  let sarses_len := Z.of_nat (nrows sarses) in
  self <~ get_self ;;
  (if negb (should_sample self)
   then set_contains (_contains self + sarses_len)
   else ret tt) ;;;
  _pop sarses_len ;;;
  _push sarses.

Definition store_example (s a r sp done : ndarray) : M unit :=
  let s := expand_dims0 s in
  let a := expand_dims0 a in
  let r := expand_dims0 r in
  let sp := expand_dims0 sp in
  let d := expand_dims0 done in
  store_example_batch s a r sp d.

(** [sample(n)]; [perm] is the permutation drawn by [np.random.choice]. *)
Definition sample (n : Z) (perm : list nat) : M sars :=
  self <~ get_self ;;
  if negb (should_sample self) || (_size self <? n)
  then lift (Raise ReplayBufferError)
  else
    indices <~ lift (choice (_size self) n perm) ;;
    rows <~ lift (take_rows (mrows (_queue self)) indices) ;;
    let sarses_samples := mk_matrix (ncols (_queue self)) rows in
    lift (_decode_sarses self sarses_samples).

(** ** Vocabulary of the properties *)

(** [len] elements of a record from offset [lo]. *)
Definition fld (lo len : nat) (row : list V) : list V :=
  firstn len (skipn lo row).

(** The array of shape [(n,) + shp] whose examples are [rows]. *)
Definition stack (shp : list Z) (rows : list (list V)) : ndarray :=
  mk_ndarray (length rows :: map Z.to_nat shp) (concat rows).

(** The five arrays held by records laid out as
    [state | action | reward | done | next_state]. *)
Definition unpack (b : ReplayBuffer) (rows : list (list V)) : sars :=
  let S := Z.to_nat (_s_size b) in
  let A := Z.to_nat (_a_size b) in
  let R := Z.to_nat (_r_size b) in
  (stack (_s_shape b) (map (fld 0 S) rows),
   stack (_a_shape b) (map (fld S A) rows),
   stack (_r_shape b) (map (fld (S + A) R) rows),
   stack (_s_shape b) (map (skipn (S + A + R + 1)) rows),
   stack [] (map (fld (S + A + R) 1) rows)).

(** [x] with its examples reshaped to [shp]. *)
Definition reshaped (n : nat) (shp : list Z) (x : ndarray) : ndarray :=
  mk_ndarray (n :: map Z.to_nat shp) (data x).

Definition positive_shape (shp : list Z) : Prop := Forall (fun d => 0 < d) shp.

(** The fields [__init__] derives from the shapes, for shapes that are
    tuples of positive integers. *)
Definition configured (b : ReplayBuffer) : Prop :=
  positive_shape (_s_shape b) /\ positive_shape (_a_shape b) /\
  positive_shape (_r_shape b) /\
  _s_size b = prod (_s_shape b) /\ _a_size b = prod (_a_shape b) /\
  _r_size b = prod (_r_shape b) /\ _d_shape b = [] /\ _d_size b = 1 /\
  _sars_size b = _s_size b * 2 + _a_size b + _r_size b + _d_size b.

(** The invariant of the object: the queue is an array of shape
    [(_size, _sars_size)]. *)
Definition buffer_inv (b : ReplayBuffer) : Prop :=
  configured b /\ 0 <= _size b /\
  ncols (_queue b) = Z.to_nat (_sars_size b) /\
  nrows (_queue b) = Z.to_nat (_size b).

(** [x.shape[0] = n] and [x] has [n * k] elements. *)
Definition leads (n k : nat) (x : ndarray) : Prop :=
  hd_error (shape x) = Some n /\ size x = (n * k)%nat.

(** [x] is a batch of [n] examples of [k] elements each. *)
Definition batch_of (n : nat) (k : Z) (x : ndarray) : Prop :=
  wf_ndarray x /\ hd_error (shape x) = Some n /\
  size x = (n * Z.to_nat k)%nat.

(** A valid batch for [_encode_sarses]: the five arrays have the leading
    dimension [n] and the element counts of the configured shapes.  A batch
    holds at least one example ([np.reshape(x, (0, -1))] is refused). *)
Definition valid_batch (b : ReplayBuffer) (n : nat) (s a r sp d : ndarray)
  : Prop :=
  (1 <= n)%nat /\
  batch_of n (_s_size b) s /\ batch_of n (_a_size b) a /\
  batch_of n (_r_size b) r /\ batch_of n (_s_size b) sp /\
  batch_of n (_d_size b) d.

(** A single transition, as [store_example] receives it. *)
Record transition : Type := mk_transition {
  t_s : ndarray;
  t_a : ndarray;
  t_r : ndarray;
  t_sp : ndarray;
  t_d : ndarray
}.

(** The transition has the element counts of the configured shapes. *)
Definition fits (b : ReplayBuffer) (t : transition) : Prop :=
  wf_ndarray (t_s t) /\ wf_ndarray (t_a t) /\ wf_ndarray (t_r t) /\
  wf_ndarray (t_sp t) /\ wf_ndarray (t_d t) /\
  size (t_s t) = Z.to_nat (_s_size b) /\ size (t_a t) = Z.to_nat (_a_size b) /\
  size (t_r t) = Z.to_nat (_r_size b) /\ size (t_sp t) = Z.to_nat (_s_size b) /\
  size (t_d t) = 1%nat.

(** The number of elements of a record. *)
Definition record_width (b : ReplayBuffer) : nat :=
  (Z.to_nat (_s_size b) + Z.to_nat (_a_size b) + Z.to_nat (_r_size b) + 1
   + Z.to_nat (_s_size b))%nat.

(** A state in which [store_example] accepts a fitting transition: actions
    and rewards of one element, and a non-empty queue of the width of a
    record. *)
Definition pushable (b : ReplayBuffer) : Prop :=
  _a_size b = 1 /\ _r_size b = 1 /\
  ncols (_queue b) = record_width b /\ (1 <= nrows (_queue b))%nat.

(** The record of a transition. *)
Definition record_of (t : transition) : list V :=
  (((data (t_s t) ++ data (t_a t)) ++ data (t_r t)) ++ data (t_d t))
    ++ data (t_sp t).

(** The five arrays that hold the transitions [ts], in order. *)
Definition batch (b : ReplayBuffer) (ts : list transition) : sars :=
  (stack (_s_shape b) (map (fun t => data (t_s t)) ts),
   stack (_a_shape b) (map (fun t => data (t_a t)) ts),
   stack (_r_shape b) (map (fun t => data (t_r t)) ts),
   stack (_s_shape b) (map (fun t => data (t_sp t)) ts),
   stack [] (map (fun t => data (t_d t)) ts)).

Definition store_transition (t : transition) : M unit :=
  store_example (t_s t) (t_a t) (t_r t) (t_sp t) (t_d t).

(** The transitions of [ts] pushed one at a time. *)
Fixpoint store_all (ts : list transition) : M unit :=
  match ts with
  | [] => ret tt
  | t :: ts' => store_transition t ;;; store_all ts'
  end.

(** The object [store_example_batch] hands to the evicting insert: the
    counter is increased by the [n] rows of the encoded batch while the gate
    is closed. *)
Definition counted (b : ReplayBuffer) (n : nat) : ReplayBuffer :=
  if should_sample b then b
  else with_contains b (_contains b + Z.of_nat n).

(** A call of [store_example_batch] on the five arrays of [x]. *)
Definition push (x : sars) : M unit :=
  let '(s, a, r, sp, d) := x in store_example_batch s a r sp d.

(** What [push x] hands to the evicting insert. *)
Definition encoded (x : sars) : result matrix :=
  let '(s, a, r, sp, d) := x in
  _encode_sarses s (flatten a) (flatten r) sp (flatten d).

(** The number of transitions of the batch [x]: the leading dimension of
    its array of states (none for an array without dimensions). *)
Definition batch_len (x : sars) : Z :=
  let '(s, _, _, _, _) := x in
  match shape s with
  | n :: _ => Z.of_nat n
  | [] => 0
  end.

(** The number of transitions of the batches [xs]. *)
Definition total_len (xs : list sars) : Z :=
  fold_right (fun x acc => batch_len x + acc) 0 xs.


(** The object after the calls [push x] for [x] in [xs], whatever each call
    returned. *)
Definition run_pushes (xs : list sars) (b : ReplayBuffer) : ReplayBuffer :=
  fold_left (fun b x => fst (push x b)) xs b.

End Model.

Arguments ndarray V : clear implicits.
Arguments matrix V : clear implicits.
Arguments ReplayBuffer V : clear implicits.
Arguments transition V : clear implicits.
Arguments sars V : clear implicits.
Arguments M V A : clear implicits.

Notation "x <~ c1 ;; c2" := (bind c1 (fun x => c2))
  (at level 61, c1 at next level, right associativity).
Notation "c1 ;;; c2" := (bind c1 (fun _ => c2))
  (at level 61, right associativity).

(** ** Concrete buffers, with integer elements *)

Definition scalar (v : Z) : ndarray Z := mk_ndarray [] [v].

Definition vector (l : list Z) : ndarray Z := mk_ndarray [length l] l.

Definition table (n w : nat) (l : list Z) : ndarray Z := mk_ndarray [n; w] l.

(** [ReplayBuffer] for states of shape [(2,)] and scalar actions and
    rewards, as built for the capacity [c >= 0]. *)
Definition new_buffer (c : Z) : ReplayBuffer Z :=
  mk_ReplayBuffer c 0 [2] 2 [] 1 [] 1 [] 1 7
    (mk_matrix 7 (repeat (repeat 0 7) (Z.to_nat c))).

(** The same for actions of shape [(2,)]. *)
Definition new_buffer_vector_actions (c : Z) : ReplayBuffer Z :=
  mk_ReplayBuffer c 0 [2] 2 [2] 2 [] 1 [] 1 8
    (mk_matrix 8 (repeat (repeat 0 8) (Z.to_nat c))).

(** The transition with state [[i, i]], action [i], reward [10 i], next
    state [[i+1, i+1]], not terminal. *)
Definition marker (i : Z) : transition Z :=
  mk_transition (vector [i; i]) (scalar i) (scalar (10 * i))
    (vector [i + 1; i + 1]) (scalar 0).

(** The buffer of capacity [c] after pushing the markers [ids], one at a
    time. *)
Definition after_markers (c : Z) (ids : list Z) : ReplayBuffer Z :=
  fst (store_all (map marker ids) (new_buffer c)).

(** The buffer of capacity 4 that holds the markers 0, 1, 2, 3. *)
Definition full_buffer : ReplayBuffer Z :=
  mk_ReplayBuffer 4 4 [2] 2 [] 1 [] 1 [] 1 7
    (mk_matrix 7 [[0; 0; 0; 0; 0; 1; 1]; [1; 1; 1; 10; 0; 2; 2];
                  [2; 2; 2; 20; 0; 3; 3]; [3; 3; 3; 30; 0; 4; 4]]).

(** A batch of the three markers 1, 2, 3. *)
Definition three_markers : sars Z :=
  (table 3 2 [1; 1; 2; 2; 3; 3], vector [1; 2; 3], vector [10; 20; 30],
   table 3 2 [2; 2; 3; 3; 4; 4], vector [0; 0; 0]).

(** A batch of the two markers 1, 2. *)
Definition two_markers : sars Z :=
  (table 2 2 [1; 1; 2; 2], vector [1; 2], vector [10; 20],
   table 2 2 [2; 2; 3; 3], vector [0; 0]).

(** ** Element types

    The arrays handled by the class are arrays of [bool], of [int64] or of
    [float64]; [np.zeros] builds an array of [float64].  A [float64] is a
    binary64 number of IEEE 754, as specified in [SpecFloat]. *)

Inductive dtype : Type := bool_ | int64 | float64.

Inductive value : Type :=
| VBool (b : bool)
| VInt (z : Z)
| VFloat (f : spec_float).

(** [v] is an element of an array of type [t]. *)
Definition has_dtype (t : dtype) (v : value) : Prop :=
  match t, v with
  | bool_, VBool _ => True
  | int64, VInt z => - 2 ^ 63 <= z < 2 ^ 63
  | float64, VFloat f => valid_binary 53 1024 f = true
  | _, _ => False
  end.

(** [np.result_type] of two of these types: the larger one in the order
    [bool < int64 < float64]. *)
Definition result_type (t u : dtype) : dtype :=
  match t, u with
  | float64, _ | _, float64 => float64
  | int64, _ | _, int64 => int64
  | bool_, bool_ => bool_
  end.

(** The [float64] nearest to the integer [z], ties to even. *)
Definition float_of_Z (z : Z) : spec_float := binary_normalize 53 1024 z 0 false.

Definition Z_of_bool (b : bool) : Z := if b then 1 else 0.

(** The conversion of an element to the type [t], for [t] at or above the
    type of the element: the only conversions that [np.concatenate] and
    the assignment into an array of [float64] make on these types. *)
Definition astype (t : dtype) (v : value) : value :=
  match t, v with
  | int64, VBool b => VInt (Z_of_bool b)
  | float64, VBool b => VFloat (float_of_Z (Z_of_bool b))
  | float64, VInt z => VFloat (float_of_Z z)
  | _, _ => v
  end.

(** The [0.0] that [np.zeros] writes. *)
Definition zero64 : value := VFloat (S754_zero false).

(** ** Elementwise application *)

Definition amap {V W : Type} (f : V -> W) (x : ndarray V) : ndarray W :=
  mk_ndarray (shape x) (map f (data x)).

Definition mmap {V W : Type} (f : V -> W) (m : matrix V) : matrix W :=
  mk_matrix (ncols m) (map (map f) (mrows m)).

Definition tmap {V W : Type} (f : V -> W) (t : transition V) : transition W :=
  mk_transition (amap f (t_s t)) (amap f (t_a t)) (amap f (t_r t))
    (amap f (t_sp t)) (amap f (t_d t)).

(** ** The class on arrays with a dtype *)

Module Typed.

(** An array and a two-dimensional array with their dtype. *)
Record tarray : Type := mk_tarray {
  dt : dtype;
  arr : ndarray value
}.

Record tmatrix : Type := mk_tmatrix {
  mdt : dtype;
  mat : matrix value
}.

(** Every element of [x] is of the dtype of [x]. *)
Definition well_typed (x : tarray) : Prop :=
  Forall (has_dtype (dt x)) (data (arr x)).

(** Shapes, [expand_dims], [flatten], [reshape] and slices keep the
    dtype. *)
Definition tshape0 (x : tarray) : result nat := shape0 (arr x).

Definition texpand_dims0 (x : tarray) : tarray :=
  mk_tarray (dt x) (expand_dims0 (arr x)).

Definition tflatten (x : tarray) : tarray :=
  mk_tarray (dt x) (flatten (arr x)).

Definition treshape_rows (x : tarray) (n : nat) : result tmatrix :=
  m <- reshape_rows (arr x) n ;;
  Ok (mk_tmatrix (dt x) m).

Definition treshape_matrix (m : tmatrix) (newshape : list Z) : result tarray :=
  x <- reshape_matrix (mat m) newshape ;;
  Ok (mk_tarray (mdt m) x).

Definition tget_cols (m : tmatrix) (lo hi : option Z) : tmatrix :=
  mk_tmatrix (mdt m) (get_cols (mat m) lo hi).

(** [np.concatenate(xs, axis=-1)]: the result has the [np.result_type] of
    the dtypes of the arrays, and each array is converted to it. *)
Definition tconcatenate (x : tmatrix) (xs : list tmatrix) : result tmatrix :=
  let t := fold_left result_type (map mdt xs) (mdt x) in
  m <- concatenate (mmap (astype t) (mat x))
         (map (fun y => mmap (astype t) (mat y)) xs) ;;
  Ok (mk_tmatrix t m).

Definition _encode_sarses (s a r sp d : tarray) : result tmatrix :=
  batch_size <- tshape0 s ;;
  a0 <- tshape0 a ;;
  if negb (Nat.eqb batch_size a0) then Raise ReplayBufferError else
  r0 <- tshape0 r ;;
  if negb (Nat.eqb batch_size r0) then Raise ReplayBufferError else
  sp0 <- tshape0 sp ;;
  if negb (Nat.eqb batch_size sp0) then Raise ReplayBufferError else
  d0 <- tshape0 d ;;
  if negb (Nat.eqb batch_size d0) then Raise ReplayBufferError else
  s' <- treshape_rows s batch_size ;;
  a' <- treshape_rows a batch_size ;;
  r' <- treshape_rows r batch_size ;;
  sp' <- treshape_rows sp batch_size ;;
  d' <- treshape_rows d batch_size ;;
  tconcatenate s' [a'; r'; d'; sp'].

(** The tuple [(s, a, r, sp, d)]. *)
Definition tsars : Type :=
  (tarray * tarray * tarray * tarray * tarray)%type.

Definition _decode_sarses (self : ReplayBuffer value) (sarses : tmatrix)
  : result tsars :=
  let s_div := _s_size self in
  let a_div := _a_size self + s_div in
  let r_div := _r_size self + a_div in
  let d_div := _d_size self + r_div in
  let s := tget_cols sarses None (Some s_div) in
  let a := tget_cols sarses (Some s_div) (Some a_div) in
  let r := tget_cols sarses (Some a_div) (Some r_div) in
  let d := tget_cols sarses (Some r_div) (Some d_div) in
  let sp := tget_cols sarses (Some d_div) None in
  s <- treshape_matrix s (-1 :: _s_shape self) ;;
  a <- treshape_matrix a (-1 :: _a_shape self) ;;
  r <- treshape_matrix r (-1 :: _r_shape self) ;;
  sp <- treshape_matrix sp (-1 :: _s_shape self) ;;
  d <- treshape_matrix d (-1 :: _d_shape self) ;;
  Ok (s, a, r, sp, d).

(** [self._queue[-sarses_len:] = sarses]: the queue is an array of
    [float64], and the values assigned are converted to it.  ([_pop]
    assigns rows of the queue to the queue: it is the [_pop] above.) *)
Definition _push (sarses : tmatrix) : M value unit :=
  let sarses_len := Z.of_nat (nrows (mat sarses)) in
  self <~ get_self ;;
  q <~ lift (set_rows (_queue self) (Some (- sarses_len)) None
               (mmap (astype float64) (mat sarses))) ;;
  set_queue q.

Definition store_example_batch (s_arr a_arr r_arr sp_arr done_mask : tarray)
  : M value unit :=
  let a_arr := tflatten a_arr in
  let r_arr := tflatten r_arr in
  let done_mask := tflatten done_mask in
  sarses <~ lift (_encode_sarses s_arr a_arr r_arr sp_arr done_mask) ;;
  let sarses_len := Z.of_nat (nrows (mat sarses)) in
  self <~ get_self ;;
  (if negb (should_sample self)
   then set_contains (_contains self + sarses_len)
   else ret tt) ;;;
  _pop sarses_len ;;;
  _push sarses.

Definition store_example (s a r sp done : tarray) : M value unit :=
  let s := texpand_dims0 s in
  let a := texpand_dims0 a in
  let r := texpand_dims0 r in
  let sp := texpand_dims0 sp in
  let d := texpand_dims0 done in
  store_example_batch s a r sp d.

(** The rows taken from the queue are [float64]. *)
Definition sample (n : Z) (perm : list nat) : M value tsars :=
  self <~ get_self ;;
  if negb (should_sample self) || (_size self <? n)
  then lift (Raise ReplayBufferError)
  else
    indices <~ lift (choice (_size self) n perm) ;;
    rows <~ lift (take_rows (mrows (_queue self)) indices) ;;
    let sarses_samples :=
      mk_tmatrix float64 (mk_matrix (ncols (_queue self)) rows) in
    lift (_decode_sarses self sarses_samples).

(** *** Vocabulary *)

(** The dtype of the matrix that [_encode_sarses] builds from five
    arrays. *)
Definition common_dtype (s a r sp d : tarray) : dtype :=
  fold_left result_type [dt a; dt r; dt d; dt sp] (dt s).

(** The five arrays [x], each of the dtype [t]. *)
Definition tagged (t : dtype) (x : sars value) : tsars :=
  let '(s, a, r, sp, d) := x in
  (mk_tarray t s, mk_tarray t a, mk_tarray t r, mk_tarray t sp,
   mk_tarray t d).

(** The number of elements of an example of [x]. *)
Definition example_size (x : tarray) : nat :=
  fold_right Nat.mul 1%nat (tl (shape (arr x))).

(** The rows of [x] cut into [n] examples, converted to the dtype [t]. *)
Definition examples (t : dtype) (n : nat) (x : tarray) : list (list value) :=
  rows_of n (example_size x) (map (astype t) (data (arr x))).

(** A single transition, as [store_example] receives it. *)
Record example : Type := mk_example {
  ex_s : tarray;
  ex_a : tarray;
  ex_r : tarray;
  ex_sp : tarray;
  ex_d : tarray
}.

(** The arrays of the example without their dtypes, and converted to
    [float64]. *)
Definition untyped (e : example) : transition value :=
  mk_transition (arr (ex_s e)) (arr (ex_a e)) (arr (ex_r e))
    (arr (ex_sp e)) (arr (ex_d e)).

Definition as_float64 (e : example) : transition value :=
  tmap (astype float64) (untyped e).

(** The example has the element counts of the configured shapes. *)
Definition fits (b : ReplayBuffer value) (e : example) : Prop :=
  fits b (untyped e).

(** The record that the queue holds for an example. *)
Definition record_of (e : example) : list value :=
  record_of (as_float64 e).

(** The five arrays, of the dtypes given, that hold the transitions [ts]
    in order. *)
Definition batch_arrays (ds da dr dsp dd : dtype) (b : ReplayBuffer value)
    (ts : list (transition value)) : tsars :=
  let '(s, a, r, sp, d) := batch b ts in
  (mk_tarray ds s, mk_tarray da a, mk_tarray dr r, mk_tarray dsp sp,
   mk_tarray dd d).

(** The five arrays of [float64] that hold the examples [es], in order. *)
Definition batch (b : ReplayBuffer value) (es : list example) : tsars :=
  tagged float64 (batch b (map as_float64 es)).

Definition store_transition (e : example) : M value unit :=
  store_example (ex_s e) (ex_a e) (ex_r e) (ex_sp e) (ex_d e).

(** The examples of [es] pushed one at a time. *)
Fixpoint store_all (es : list example) : M value unit :=
  match es with
  | [] => ret tt
  | e :: es' => store_transition e ;;; store_all es'
  end.

(** A transition whose five arrays have the dtypes given. *)
Definition with_dtypes (ds da dr dsp dd : dtype) (t : transition value)
  : example :=
  mk_example (mk_tarray ds (t_s t)) (mk_tarray da (t_a t))
    (mk_tarray dr (t_r t)) (mk_tarray dsp (t_sp t)) (mk_tarray dd (t_d t)).

(** A call of [store_example_batch] on the five arrays of [x]. *)
Definition push (x : tsars) : M value unit :=
  let '(s, a, r, sp, d) := x in store_example_batch s a r sp d.

(** [x] converted to the dtype [t], its examples reshaped to [shp]. *)
Definition converted (t : dtype) (n : nat) (shp : list Z) (x : tarray)
  : tarray :=
  mk_tarray t (reshaped n shp (amap (astype t) (arr x))).

(** [x] with its examples reshaped to [shp]. *)
Definition treshaped (n : nat) (shp : list Z) (x : tarray) : tarray :=
  mk_tarray (dt x) (reshaped n shp (arr x)).

End Typed.

(** ** Concrete arrays with a dtype *)

Definition ints (shp : list nat) (l : list Z) : Typed.tarray :=
  Typed.mk_tarray int64 (mk_ndarray shp (map VInt l)).

Definition floats (shp : list nat) (l : list Z) : Typed.tarray :=
  Typed.mk_tarray float64
    (mk_ndarray shp (map (fun z => VFloat (float_of_Z z)) l)).

Definition bools (shp : list nat) (l : list bool) : Typed.tarray :=
  Typed.mk_tarray bool_ (mk_ndarray shp (map VBool l)).

(** [new_buffer c], with its queue of [float64]. *)
Definition new_buffer64 (c : Z) : ReplayBuffer value :=
  mk_ReplayBuffer c 0 [2] 2 [] 1 [] 1 [] 1 7
    (mk_matrix 7 (repeat (repeat zero64 7) (Z.to_nat c))).

(** The transition with the [int64] state [[i, i]], the [int64] action [i],
    the [float64] reward [10 i], the [int64] next state [[i+1, i+1]] and
    the flag [False]. *)
Definition typed_marker (i : Z) : Typed.example :=
  Typed.mk_example (ints [2%nat] [i; i]) (ints [] [i]) (floats [] [10 * i])
    (ints [2%nat] [i + 1; i + 1]) (bools [] [false]).

(** * Properties *)

Section Lists.

Context {A : Type}.

Lemma rows_of_length (n w : nat) (l : list A) :
  length (rows_of n w l) = n.
Proof.
  revert l; induction n as [|n IH]; intros l; simpl; [reflexivity|].
  now rewrite IH.
Qed.

Lemma rows_of_width (n w : nat) (l : list A) :
  length l = (n * w)%nat ->
  Forall (fun r => length r = w) (rows_of n w l).
Proof.
  revert l; induction n as [|n IH]; intros l Hl; simpl; constructor.
  - rewrite length_firstn. lia.
  - apply IH. rewrite length_skipn. lia.
Qed.

Lemma concat_rows_of (n w : nat) (l : list A) :
  length l = (n * w)%nat -> concat (rows_of n w l) = l.
Proof.
  revert l; induction n as [|n IH]; intros l Hl; simpl.
  - destruct l; [reflexivity | discriminate].
  - rewrite IH by (rewrite length_skipn; lia).
    apply firstn_skipn.
Qed.

Lemma rows_of_one (w : nat) (l : list A) :
  length l = w -> rows_of 1 w l = [l].
Proof.
  intros Hl; simpl. rewrite firstn_all2 by lia. reflexivity.
Qed.

Lemma hcat_length (xs ys : list (list A)) :
  length xs = length ys -> length (hcat xs ys) = length xs.
Proof.
  revert ys; induction xs as [|x xs IH]; intros [|y ys] H; simpl in *;
    try reflexivity; try discriminate.
  f_equal. apply IH. lia.
Qed.

Lemma hcat_length_eq (n : nat) (xs ys : list (list A)) :
  length xs = n -> length ys = n -> length (hcat xs ys) = n.
Proof. intros Hx Hy. rewrite hcat_length; congruence. Qed.

Lemma hcat_width (k1 k2 : nat) (xs ys : list (list A)) :
  Forall (fun r => length r = k1) xs ->
  Forall (fun r => length r = k2) ys ->
  Forall (fun r => length r = (k1 + k2)%nat) (hcat xs ys).
Proof.
  intros Hx; revert ys; induction Hx as [|x xs Hx _ IH]; intros ys Hy.
  - constructor.
  - destruct Hy as [|y ys Hy Hys]; simpl; constructor.
    + rewrite length_app. lia.
    + apply IH, Hys.
Qed.

Lemma hcat_assoc (xs ys zs : list (list A)) :
  hcat (hcat xs ys) zs = hcat xs (hcat ys zs).
Proof.
  revert ys zs; induction xs as [|x xs IH]; intros [|y ys] [|z zs]; simpl;
    try reflexivity.
  now rewrite IH, app_assoc.
Qed.

Lemma hcat_map {B} (f g : B -> list A) (l : list B) :
  hcat (map f l) (map g l) = map (fun x => f x ++ g x) l.
Proof.
  induction l as [|x l IH]; simpl; [reflexivity | now rewrite IH].
Qed.

Lemma map_firstn_hcat (k : nat) (xs ys : list (list A)) :
  Forall (fun r => length r = k) xs -> length xs = length ys ->
  map (firstn k) (hcat xs ys) = xs.
Proof.
  intros Hx; revert ys; induction Hx as [|x xs Hx _ IH]; intros [|y ys] H;
    simpl in *; try reflexivity; try discriminate.
  rewrite IH by lia. f_equal.
  rewrite firstn_app, firstn_all2 by lia.
  replace (k - length x)%nat with 0%nat by lia.
  simpl. apply app_nil_r.
Qed.

Lemma map_skipn_hcat (k : nat) (xs ys : list (list A)) :
  Forall (fun r => length r = k) xs -> length xs = length ys ->
  map (skipn k) (hcat xs ys) = ys.
Proof.
  intros Hx; revert ys; induction Hx as [|x xs Hx _ IH]; intros [|y ys] H;
    simpl in *; try reflexivity; try discriminate.
  rewrite IH by lia. f_equal.
  rewrite skipn_app, skipn_all2 by lia.
  replace (k - length x)%nat with 0%nat by lia.
  reflexivity.
Qed.

(** Slices with bounds inside the sequence. *)

Lemma py_slice_upto (k : Z) (l : list A) :
  0 <= k -> py_slice None (Some k) l = firstn (Z.to_nat k) l.
Proof.
  intros Hk. unfold py_slice, slice_bounds, norm_index.
  destruct (k <? 0) eqn:E; [lia|].
  rewrite Z.sub_0_r. simpl.
  destruct (Z.min_spec k (Z.of_nat (length l))) as [[H ->]|[H ->]].
  - reflexivity.
  - rewrite Nat2Z.id. rewrite !firstn_all2; [reflexivity | lia | lia].
Qed.

Lemma py_slice_from (k : Z) (l : list A) :
  0 <= k -> py_slice (Some k) None l = skipn (Z.to_nat k) l.
Proof.
  intros Hk. unfold py_slice, slice_bounds, norm_index.
  destruct (k <? 0) eqn:E; [lia|].
  destruct (Z.min_spec k (Z.of_nat (length l))) as [[H ->]|[H ->]].
  - apply firstn_all2. rewrite length_skipn. lia.
  - rewrite (skipn_all2 (n := Z.to_nat k)) by lia.
    rewrite skipn_all2 by lia. apply firstn_nil.
Qed.

Lemma py_slice_between (lo hi : Z) (l : list A) :
  0 <= lo <= hi ->
  py_slice (Some lo) (Some hi) l
  = firstn (Z.to_nat hi - Z.to_nat lo) (skipn (Z.to_nat lo) l).
Proof.
  intros H. unfold py_slice, slice_bounds, norm_index.
  destruct (lo <? 0) eqn:E1; [lia|].
  destruct (hi <? 0) eqn:E2; [lia|].
  destruct (Z.min_spec lo (Z.of_nat (length l))) as [[H1 ->]|[H1 ->]];
    destruct (Z.min_spec hi (Z.of_nat (length l))) as [[H2 ->]|[H2 ->]].
  - f_equal. lia.
  - rewrite !firstn_all2; try reflexivity; rewrite length_skipn; lia.
  - lia.
  - rewrite (skipn_all2 (n := Z.to_nat lo)) by lia.
    rewrite skipn_all2 by lia. now rewrite !firstn_nil.
Qed.

Lemma slice_width_upto (len : nat) (k : Z) :
  0 <= k <= Z.of_nat len ->
  snd (slice_bounds len None (Some k)) = Z.to_nat k.
Proof.
  intros H. unfold slice_bounds, norm_index; simpl.
  destruct (k <? 0) eqn:E; [lia|]. lia.
Qed.

Lemma slice_width_between (len : nat) (lo hi : Z) :
  0 <= lo <= hi -> hi <= Z.of_nat len ->
  snd (slice_bounds len (Some lo) (Some hi)) = (Z.to_nat hi - Z.to_nat lo)%nat.
Proof.
  intros H H'. unfold slice_bounds, norm_index; simpl.
  destruct (lo <? 0) eqn:E1; [lia|].
  destruct (hi <? 0) eqn:E2; [lia|]. lia.
Qed.

Lemma slice_width_from (len : nat) (lo : Z) :
  0 <= lo <= Z.of_nat len ->
  snd (slice_bounds len (Some lo) None) = (len - Z.to_nat lo)%nat.
Proof.
  intros H. unfold slice_bounds, norm_index; simpl.
  destruct (lo <? 0) eqn:E1; [lia|]. lia.
Qed.

End Lists.

Section Shapes.

Lemma fold_left_mul (l : list Z) (a : Z) :
  fold_left Z.mul l a = a * fold_right Z.mul 1 l.
Proof.
  revert a; induction l as [|x l IH]; intros a; simpl; [lia|].
  rewrite IH. lia.
Qed.

Lemma prod_fold_right (l : list Z) : prod l = fold_right Z.mul 1 l.
Proof. unfold prod. rewrite fold_left_mul. lia. Qed.

Lemma prod_positive (l : list Z) : positive_shape l -> 0 < prod l.
Proof.
  rewrite prod_fold_right.
  induction 1 as [|x l Hx _ IH]; simpl; [lia | nia].
Qed.

Lemma filter_known_positive (l : list Z) :
  positive_shape l -> filter (fun d => 0 <=? d) l = l.
Proof.
  induction 1 as [|x l Hx _ IH]; simpl; [reflexivity|].
  destruct (0 <=? x) eqn:E; [now rewrite IH | lia].
Qed.

Lemma filter_unknown_positive (l : list Z) :
  positive_shape l -> filter (fun d => d <? 0) l = [].
Proof.
  induction 1 as [|x l Hx _ IH]; simpl; [reflexivity|].
  destruct (x <? 0) eqn:E; [lia | exact IH].
Qed.

Lemma map_fill_positive (l : list Z) (u : nat) :
  positive_shape l ->
  map (fun d => if d <? 0 then u else Z.to_nat d) l = map Z.to_nat l.
Proof.
  induction 1 as [|x l Hx _ IH]; simpl; [reflexivity|].
  destruct (x <? 0) eqn:E; [lia | now rewrite IH].
Qed.

Lemma size_nat_shape (l : list Z) :
  positive_shape l ->
  fold_right Nat.mul 1%nat (map Z.to_nat l) = Z.to_nat (prod l).
Proof.
  rewrite prod_fold_right.
  induction 1 as [|x l Hx Hl IH]; simpl; [reflexivity|].
  rewrite IH, Z2Nat.inj_mul; [reflexivity | lia |].
  rewrite <- prod_fold_right. apply Z.lt_le_incl, prod_positive, Hl.
Qed.

(** [np.reshape(x, (-1,) + shp)] for [n] examples of [prod shp] elements. *)
Lemma resolve_examples (n : nat) (shp : list Z) :
  positive_shape shp ->
  resolve_shape (n * Z.to_nat (prod shp)) (-1 :: shp)
  = Ok (n :: map Z.to_nat shp).
Proof.
  intros Hp. pose proof (prod_positive _ Hp) as Hpos.
  unfold resolve_shape. simpl filter.
  rewrite filter_known_positive, filter_unknown_positive by assumption.
  simpl length. rewrite <- prod_fold_right.
  assert (Hsz : Z.of_nat (n * Z.to_nat (prod shp)) = Z.of_nat n * prod shp)
    by lia.
  rewrite Hsz, Z.mod_mul by lia.
  destruct (prod shp =? 0) eqn:E; [lia|]. simpl.
  rewrite Z.div_mul by lia. rewrite Nat2Z.id.
  now rewrite map_fill_positive.
Qed.

(** [np.reshape(x, (n, -1))] for [n >= 1] examples of [k] elements. *)
Lemma resolve_rows (n k : nat) :
  (1 <= n)%nat ->
  resolve_shape (n * k) [Z.of_nat n; -1] = Ok [n; k].
Proof.
  intros Hn. unfold resolve_shape. simpl.
  destruct (0 <=? Z.of_nat n) eqn:E0; [|lia].
  destruct (Z.of_nat n <? 0) eqn:E1; [lia|]. simpl.
  rewrite Z.mul_1_r.
  destruct (Z.of_nat n =? 0) eqn:E2; [lia|]. simpl.
  replace (Z.of_nat (n * k)) with (Z.of_nat k * Z.of_nat n) by lia.
  rewrite Z.mod_mul, Z.div_mul by lia. simpl.
  now rewrite !Nat2Z.id.
Qed.

(** [np.reshape(x, (0, -1))] is refused. *)
Lemma resolve_rows_empty (sz : nat) :
  resolve_shape sz [0; -1] = Raise ValueError.
Proof. reflexivity. Qed.

End Shapes.

Section Encoding.

Context {V : Type}.

Implicit Types (x s a r sp d : ndarray V) (m : matrix V)
  (b : ReplayBuffer V).

Lemma map_fld (lo len : nat) (rows : list (list V)) :
  map (fld lo len) rows = map (firstn len) (map (skipn lo) rows).
Proof. rewrite map_map. reflexivity. Qed.

(** The fields of records that were concatenated row by row. *)
Lemma fields_of_hcat (n S A R D : nat) (Ss As Rs Ds SPs : list (list V)) :
  Forall (fun l => length l = S) Ss -> Forall (fun l => length l = A) As ->
  Forall (fun l => length l = R) Rs -> Forall (fun l => length l = D) Ds ->
  length Ss = n -> length As = n -> length Rs = n -> length Ds = n ->
  length SPs = n ->
  let rows := hcat (hcat (hcat (hcat Ss As) Rs) Ds) SPs in
  map (fld 0 S) rows = Ss /\ map (fld S A) rows = As /\
  map (fld (S + A) R) rows = Rs /\ map (fld (S + A + R) D) rows = Ds /\
  map (skipn (S + A + R + D)) rows = SPs.
Proof.
  intros HS HA HR HD LS LA LR LD LSP rows.
  assert (LSA : length (hcat Ss As) = n) by (rewrite hcat_length; lia).
  assert (LSAR : length (hcat (hcat Ss As) Rs) = n)
    by (rewrite hcat_length; lia).
  assert (LSARD : length (hcat (hcat (hcat Ss As) Rs) Ds) = n)
    by (rewrite hcat_length; lia).
  assert (LDSP : length (hcat Ds SPs) = n) by (rewrite hcat_length; lia).
  assert (LRDSP : length (hcat Rs (hcat Ds SPs)) = n)
    by (rewrite hcat_length; lia).
  assert (LARDSP : length (hcat As (hcat Rs (hcat Ds SPs))) = n)
    by (rewrite hcat_length; lia).
  pose proof (hcat_width _ _ _ _ HS HA) as HSA.
  pose proof (hcat_width _ _ _ _ HSA HR) as HSAR.
  pose proof (hcat_width _ _ _ _ HSAR HD) as HSARD.
  repeat split.
  - rewrite map_fld. simpl skipn. rewrite map_id.
    unfold rows. rewrite !hcat_assoc.
    apply map_firstn_hcat; [assumption | lia].
  - rewrite map_fld. unfold rows. rewrite !hcat_assoc.
    rewrite map_skipn_hcat by (assumption || lia).
    apply map_firstn_hcat; [assumption | lia].
  - rewrite map_fld. unfold rows.
    rewrite (hcat_assoc (hcat (hcat Ss As) Rs) Ds SPs),
      (hcat_assoc (hcat Ss As) Rs).
    rewrite map_skipn_hcat by (assumption || lia).
    apply map_firstn_hcat; [assumption | lia].
  - rewrite map_fld. unfold rows.
    rewrite (hcat_assoc (hcat (hcat Ss As) Rs)).
    rewrite map_skipn_hcat by (assumption || lia).
    apply map_firstn_hcat; [assumption | lia].
  - unfold rows. apply map_skipn_hcat; [assumption | lia].
Qed.

Lemma reshape_rows_ok (n k : nat) x :
  (1 <= n)%nat -> size x = (n * k)%nat ->
  reshape_rows x n = Ok (mk_matrix k (rows_of n k (data x))).
Proof.
  intros Hn Hsz. unfold reshape_rows.
  rewrite Hsz, resolve_rows by assumption. reflexivity.
Qed.

Lemma reshape_matrix_examples (shp : list Z) m :
  positive_shape shp -> ncols m = Z.to_nat (prod shp) ->
  reshape_matrix m (-1 :: shp) = Ok (stack shp (mrows m)).
Proof.
  intros Hp Hc. unfold reshape_matrix.
  rewrite Hc, resolve_examples by assumption. reflexivity.
Qed.

Lemma leads_shape0 (n k : nat) x : leads n k x -> shape0 x = Ok n.
Proof.
  intros [H _]. unfold shape0. destruct (shape x); [discriminate|].
  simpl in H. congruence.
Qed.

(** [_encode_sarses] on five arrays with the leading dimension [n >= 1]:
    the per-example element counts are whatever the arrays have. *)
Lemma encode_rows (n ks ka kr ksp kd : nat) s a r sp d :
  (1 <= n)%nat ->
  leads n ks s -> leads n ka a -> leads n kr r -> leads n ksp sp ->
  leads n kd d ->
  _encode_sarses s a r sp d
  = Ok (mk_matrix (ks + ka + kr + kd + ksp)
          (hcat (hcat (hcat (hcat (rows_of n ks (data s))
                                  (rows_of n ka (data a)))
                            (rows_of n kr (data r)))
                      (rows_of n kd (data d)))
                (rows_of n ksp (data sp)))).
Proof.
  intros Hn Hs Ha Hr Hsp Hd. unfold _encode_sarses.
  rewrite (leads_shape0 _ _ _ Hs), (leads_shape0 _ _ _ Ha),
    (leads_shape0 _ _ _ Hr), (leads_shape0 _ _ _ Hsp),
    (leads_shape0 _ _ _ Hd).
  simpl. rewrite Nat.eqb_refl. simpl.
  rewrite (reshape_rows_ok n ks), (reshape_rows_ok n ka),
    (reshape_rows_ok n kr), (reshape_rows_ok n ksp), (reshape_rows_ok n kd)
    by (assumption || apply Hs || apply Ha || apply Hr || apply Hsp
        || apply Hd).
  simpl. unfold concatenate2, nrows. simpl.
  pose proof (rows_of_length n ks (data s)) as Ls.
  pose proof (rows_of_length n ka (data a)) as La.
  pose proof (rows_of_length n kr (data r)) as Lr.
  pose proof (rows_of_length n kd (data d)) as Ld.
  pose proof (rows_of_length n ksp (data sp)) as Lsp.
  assert (L1 : length (hcat (rows_of n ks (data s)) (rows_of n ka (data a)))
               = n) by (rewrite hcat_length; congruence).
  assert (L2 : length (hcat (hcat (rows_of n ks (data s))
                                  (rows_of n ka (data a)))
                            (rows_of n kr (data r))) = n)
    by (rewrite hcat_length; congruence).
  assert (L3 : length (hcat (hcat (hcat (rows_of n ks (data s))
                                        (rows_of n ka (data a)))
                                  (rows_of n kr (data r)))
                            (rows_of n kd (data d))) = n)
    by (rewrite hcat_length; congruence).
  rewrite Ls, La, Nat.eqb_refl. simpl.
  rewrite L1, Lr, Nat.eqb_refl. simpl.
  rewrite L2, Ld, Nat.eqb_refl. simpl.
  rewrite L3, Lsp, Nat.eqb_refl. reflexivity.
Qed.

(** An empty batch is refused: [np.reshape(s, (0, -1))] raises. *)
Lemma encode_empty_batch s a r sp d :
  shape0 s = Ok 0%nat -> shape0 a = Ok 0%nat -> shape0 r = Ok 0%nat ->
  shape0 sp = Ok 0%nat -> shape0 d = Ok 0%nat ->
  _encode_sarses s a r sp d = Raise ValueError.
Proof.
  intros Hs Ha Hr Hsp Hd. unfold _encode_sarses.
  rewrite Hs, Ha, Hr, Hsp, Hd. reflexivity.
Qed.

(** [_decode_sarses] on records of [_sars_size] elements. *)
Lemma decode_rows b m :
  configured b -> ncols m = Z.to_nat (_sars_size b) ->
  _decode_sarses b m = Ok (unpack b (mrows m)).
Proof.
  intros (Hps & Hpa & Hpr & Hs & Ha & Hr & Hd & Hd1 & Hw) Hc.
  pose proof (prod_positive _ Hps) as Ps.
  pose proof (prod_positive _ Hpa) as Pa.
  pose proof (prod_positive _ Hpr) as Pr.
  rewrite <- Hs in Ps. rewrite <- Ha in Pa. rewrite <- Hr in Pr.
  unfold _decode_sarses, unpack.
  rewrite Hd, Hd1.
  set (S := Z.to_nat (_s_size b)). set (A := Z.to_nat (_a_size b)).
  set (R := Z.to_nat (_r_size b)).
  assert (E1 : get_cols m None (Some (_s_size b))
               = mk_matrix S (map (fld 0 S) (mrows m))).
  { unfold get_cols. rewrite slice_width_upto by lia. f_equal.
    apply map_ext; intros l. now rewrite py_slice_upto by lia. }
  assert (E2 : get_cols m (Some (_s_size b)) (Some (_a_size b + _s_size b))
               = mk_matrix A (map (fld S A) (mrows m))).
  { unfold get_cols. rewrite slice_width_between by lia.
    replace (Z.to_nat (_a_size b + _s_size b) - Z.to_nat (_s_size b))%nat
      with A by lia.
    f_equal. apply map_ext; intros l.
    rewrite py_slice_between by lia. unfold fld. f_equal. lia. }
  assert (E3 : get_cols m (Some (_a_size b + _s_size b))
                 (Some (_r_size b + (_a_size b + _s_size b)))
               = mk_matrix R (map (fld (S + A) R) (mrows m))).
  { unfold get_cols. rewrite slice_width_between by lia.
    replace (Z.to_nat (_r_size b + (_a_size b + _s_size b))
             - Z.to_nat (_a_size b + _s_size b))%nat with R by lia.
    f_equal. apply map_ext; intros l.
    rewrite py_slice_between by lia. unfold fld.
    replace (Z.to_nat (_a_size b + _s_size b)) with (S + A)%nat by lia.
    f_equal. lia. }
  assert (E4 : get_cols m (Some (_r_size b + (_a_size b + _s_size b)))
                 (Some (1 + (_r_size b + (_a_size b + _s_size b))))
               = mk_matrix 1 (map (fld (S + A + R) 1) (mrows m))).
  { unfold get_cols. rewrite slice_width_between by lia.
    replace (Z.to_nat (1 + (_r_size b + (_a_size b + _s_size b)))
             - Z.to_nat (_r_size b + (_a_size b + _s_size b)))%nat
      with 1%nat by lia.
    f_equal. apply map_ext; intros l.
    rewrite py_slice_between by lia. unfold fld.
    replace (Z.to_nat (_r_size b + (_a_size b + _s_size b)))
      with (S + A + R)%nat by lia.
    f_equal. lia. }
  assert (E5 : get_cols m (Some (1 + (_r_size b + (_a_size b + _s_size b))))
                 None
               = mk_matrix S (map (skipn (S + A + R + 1)) (mrows m))).
  { unfold get_cols. rewrite slice_width_from by lia.
    replace (ncols m - Z.to_nat (1 + (_r_size b + (_a_size b + _s_size b))))%nat
      with S by lia.
    f_equal. apply map_ext; intros l.
    rewrite py_slice_from by lia. f_equal. lia. }
  rewrite E1, E2, E3, E4, E5.
  rewrite !reshape_matrix_examples;
    try assumption; try constructor; simpl; try (unfold S, A, R; congruence).
Qed.

End Encoding.

Section RoundTrip.

Context {V : Type}.

Implicit Types (s a r sp d : ndarray V) (b : ReplayBuffer V).

Lemma batch_of_leads (n : nat) (k : Z) (x : ndarray V) :
  batch_of n k x -> leads n (Z.to_nat k) x.
Proof. intros (_ & H1 & H2). split; assumption. Qed.

Lemma stack_rows_of (n k : nat) (shp : list Z) (x : ndarray V) :
  wf_ndarray x -> size x = (n * k)%nat ->
  stack shp (rows_of n k (data x)) = reshaped n shp x.
Proof.
  intros Hwf Hsz. unfold stack, reshaped.
  rewrite rows_of_length, concat_rows_of; [reflexivity|].
  now rewrite Hwf.
Qed.

(** Round trip on arrays of one element type: for a buffer configured with shapes of positive
    dimensions and a valid batch of [n] examples (the five arrays have the
    leading dimension [n] and per-example element counts equal to the
    products of the configured shapes), [_encode_sarses] returns a matrix
    and [_decode_sarses] of that matrix returns the five arrays, element
    for element, each with the shape [(n,) + configured shape]. *)
Lemma roundtrip_rows b (n : nat) s a r sp d :
  configured b -> valid_batch b n s a r sp d ->
  exists m,
    _encode_sarses s a r sp d = Ok m /\
    _decode_sarses b m
    = Ok (reshaped n (_s_shape b) s, reshaped n (_a_shape b) a,
          reshaped n (_r_shape b) r, reshaped n (_s_shape b) sp,
          reshaped n (_d_shape b) d).
Proof.
  intros Hcfg (Hn & Hs & Ha & Hr & Hsp & Hd).
  pose proof Hcfg as (Hps & Hpa & Hpr & Es & Ea & Er & Ed & Ed1 & Ew).
  pose proof (prod_positive _ Hps) as Ps.
  pose proof (prod_positive _ Hpa) as Pa.
  pose proof (prod_positive _ Hpr) as Pr.
  rewrite <- Es in Ps. rewrite <- Ea in Pa. rewrite <- Er in Pr.
  rewrite Ed1 in Hd.
  eexists. split.
  - apply (encode_rows n (Z.to_nat (_s_size b)) (Z.to_nat (_a_size b))
             (Z.to_nat (_r_size b)) (Z.to_nat (_s_size b)) (Z.to_nat 1)
             s a r sp d Hn);
      apply batch_of_leads; assumption.
  - rewrite decode_rows; [| assumption | simpl; lia].
    unfold unpack. cbn [mrows].
    set (S := Z.to_nat (_s_size b)). set (A := Z.to_nat (_a_size b)).
    set (R := Z.to_nat (_r_size b)).
    destruct Hs as (Ws & _ & Zs). destruct Ha as (Wa & _ & Za).
    destruct Hr as (Wr & _ & Zr). destruct Hsp as (Wsp & _ & Zsp).
    destruct Hd as (Wd & _ & Zd).
    change (Z.to_nat 1) with 1%nat in *.
    destruct (fields_of_hcat n S A R 1
                (rows_of n S (data s)) (rows_of n A (data a))
                (rows_of n R (data r)) (rows_of n 1 (data d))
                (rows_of n S (data sp)))
      as (F1 & F2 & F3 & F4 & F5);
      try apply rows_of_length;
      try (apply rows_of_width; unfold wf_ndarray in *; subst S A R;
           congruence).
    rewrite F1, F2, F3, F4, F5, Ed.
    rewrite !stack_rows_of by assumption.
    reflexivity.
Qed.

End RoundTrip.

Section Eviction.

Context {V : Type}.

Implicit Types (b : ReplayBuffer V) (m q : matrix V) (x : sars V).

Lemma bounds_drop_tail (c k : nat) :
  (1 <= k)%nat ->
  slice_bounds c None (Some (- Z.of_nat k)) = (0%nat, (c - k)%nat).
Proof.
  intros Hk. unfold slice_bounds, norm_index.
  destruct (- Z.of_nat k <? 0) eqn:E; [|lia].
  f_equal. lia.
Qed.

Lemma bounds_tail (c k : nat) :
  (1 <= k)%nat ->
  slice_bounds c (Some (- Z.of_nat k)) None = ((c - k)%nat, Nat.min k c).
Proof.
  intros Hk. unfold slice_bounds, norm_index.
  destruct (- Z.of_nat k <? 0) eqn:E; [|lia].
  f_equal; lia.
Qed.

Lemma get_rows_from q (k : nat) :
  get_rows q (Some (Z.of_nat k)) None = mk_matrix (ncols q) (skipn k (mrows q)).
Proof.
  unfold get_rows. rewrite py_slice_from by lia.
  now rewrite Nat2Z.id.
Qed.

Lemma with_queue_same b : with_queue b (_queue b) = b.
Proof. destruct b; reflexivity. Qed.

(** [_pop(k)] moves the rows from [k] on to the front; the last rows keep
    what they held. *)
Lemma pop_rows b (k : nat) :
  (1 <= k)%nat ->
  _pop (Z.of_nat k) b
  = (with_queue b
       (mk_matrix (ncols (_queue b))
          (skipn k (mrows (_queue b))
             ++ skipn (nrows (_queue b) - k) (mrows (_queue b)))),
     Ok tt).
Proof.
  intros Hk. unfold _pop, bind, get_self, lift, set_queue, set_rows.
  rewrite bounds_drop_tail by assumption.
  rewrite get_rows_from. unfold broadcast, nrows. cbn [ncols mrows].
  rewrite Nat.eqb_refl. cbn [rbind].
  rewrite length_skipn, Nat.eqb_refl. reflexivity.
Qed.

(** [_push(m)] for at most as many rows as the queue has, of the width of
    the queue: they replace the last rows. *)
Lemma push_rows b m :
  ncols m = ncols (_queue b) ->
  (1 <= nrows m <= nrows (_queue b))%nat ->
  _push m b
  = (with_queue b
       (mk_matrix (ncols (_queue b))
          (firstn (nrows (_queue b) - nrows m) (mrows (_queue b))
             ++ mrows m)),
     Ok tt).
Proof.
  intros Hc Hn. unfold _push, bind, get_self, lift, set_queue, set_rows.
  rewrite bounds_tail by lia.
  unfold broadcast. rewrite Hc, Nat.eqb_refl. cbn [rbind].
  replace (Nat.min (nrows m) (nrows (_queue b))) with (nrows m) by lia.
  rewrite Nat.eqb_refl.
  rewrite (skipn_all2 (n := (nrows (_queue b) - nrows m + nrows m)%nat))
    by (unfold nrows in *; lia).
  cbn [rbind]. now rewrite app_nil_r.
Qed.

(** [_push(m)] for more rows than the queue has: the slice assignment is
    refused. *)
Lemma push_too_many b m :
  (1 <= nrows (_queue b) < nrows m)%nat ->
  _push m b = (b, Raise ValueError).
Proof.
  intros Hn. unfold _push, bind, get_self, lift, set_rows.
  rewrite bounds_tail by lia.
  replace (Nat.min (nrows m) (nrows (_queue b))) with (nrows (_queue b))
    by lia.
  unfold broadcast.
  destruct (Nat.eqb (ncols m) (ncols (_queue b)));
    [| destruct (Nat.eqb (ncols m) 1)]; cbn [rbind]; try reflexivity;
    (destruct (Nat.eqb_spec (nrows m) (nrows (_queue b))); [lia|]);
    (destruct (Nat.eqb_spec (nrows m) 1); [lia|]); reflexivity.
Qed.

(** [_push(m)] for rows of another width than the queue (and not of width
    1): the slice assignment is refused. *)
Lemma push_wrong_width b m :
  ncols m <> ncols (_queue b) -> ncols m <> 1%nat ->
  _push m b = (b, Raise ValueError).
Proof.
  intros H1 H2. unfold _push, bind, get_self, lift, set_rows.
  destruct (slice_bounds _ _ _) as [start cnt].
  unfold broadcast.
  destruct (Nat.eqb_spec (ncols m) (ncols (_queue b))); [contradiction|].
  destruct (Nat.eqb_spec (ncols m) 1); [contradiction|]. reflexivity.
Qed.

(** A slice assignment fails with [ValueError] only, and keeps the width. *)
Lemma set_rows_cases q (lo hi : option Z) m :
  (exists rows, set_rows q lo hi m = Ok (mk_matrix (ncols q) rows))
  \/ set_rows q lo hi m = Raise ValueError.
Proof.
  unfold set_rows. destruct (slice_bounds _ _ _) as [start cnt].
  unfold broadcast.
  destruct (Nat.eqb (ncols m) (ncols q));
    [| destruct (Nat.eqb (ncols m) 1)]; cbn [rbind];
    try (now right);
    (destruct (Nat.eqb (nrows m) cnt); [left; eexists; reflexivity|]);
    (destruct (Nat.eqb (nrows m) 1); [left; eexists; reflexivity|]);
    now right.
Qed.

Lemma pop_cases b (n : Z) :
  (exists rows,
     _pop n b = (with_queue b (mk_matrix (ncols (_queue b)) rows), Ok tt))
  \/ _pop n b = (b, Raise ValueError).
Proof.
  unfold _pop, bind, get_self, lift, set_queue.
  destruct (set_rows_cases (_queue b) None (Some (- n))
              (get_rows (_queue b) (Some n) None)) as [[rows ->] | ->].
  - left. now exists rows.
  - now right.
Qed.

Lemma push_cases b m :
  (exists rows,
     _push m b = (with_queue b (mk_matrix (ncols (_queue b)) rows), Ok tt))
  \/ _push m b = (b, Raise ValueError).
Proof.
  unfold _push, bind, get_self, lift, set_queue.
  destruct (set_rows_cases (_queue b) (Some (- Z.of_nat (nrows m))) None m)
    as [[rows ->] | ->].
  - left. now exists rows.
  - now right.
Qed.

Lemma push_unfold x b :
  push x b
  = match encoded x with
    | Raise e => (b, Raise e)
    | Ok m => (_pop (Z.of_nat (nrows m)) ;;; _push m) (counted b (nrows m))
    end.
Proof.
  destruct x as [[[[s a] r] sp] d].
  unfold push, encoded, store_example_batch, counted, bind at 1, lift.
  destruct (_encode_sarses _ _ _ _ _) as [m|e]; [|reflexivity].
  unfold bind at 1, get_self. unfold bind at 1.
  destruct (should_sample b); reflexivity.
Qed.

Lemma push_rejected x b (e : exn) :
  encoded x = Raise e -> push x b = (b, Raise e).
Proof. intros H. rewrite push_unfold, H. reflexivity. Qed.

Lemma counted_queue b (n : nat) : _queue (counted b n) = _queue b.
Proof. unfold counted. destruct (should_sample b); reflexivity. Qed.

Lemma with_queue_twice b q q' : with_queue (with_queue b q) q' = with_queue b q'.
Proof. reflexivity. Qed.

(** After a push that the encoder accepted, the object differs from
    [counted b n] in its queue only, the queue keeps its width, and the call
    returns or raises [ValueError]. *)
Lemma push_accepted x b m :
  encoded x = Ok m ->
  exists q,
    ncols q = ncols (_queue b) /\
    fst (push x b) = with_queue (counted b (nrows m)) q /\
    (snd (push x b) = Ok tt \/ snd (push x b) = Raise ValueError).
Proof.
  intros H. rewrite push_unfold, H.
  set (b1 := counted b (nrows m)).
  assert (Hq : _queue b1 = _queue b) by apply counted_queue.
  unfold bind.
  destruct (pop_cases b1 (Z.of_nat (nrows m))) as [[rows ->] | ->].
  - set (b2 := with_queue b1 _).
    destruct (push_cases b2 m) as [[rows' ->] | ->].
    + eexists. split; [|split; [apply with_queue_twice | now left]].
      simpl. now rewrite Hq.
    + exists (_queue b2). split; [simpl; now rewrite Hq|].
      split; [reflexivity | now right].
  - exists (_queue b1). split; [now rewrite Hq|].
    split; [now rewrite with_queue_same | now right].
Qed.

End Eviction.

Section Readiness.

Context {V : Type}.
Variable zero : V.

Implicit Types (b : ReplayBuffer V) (x : sars V).

Lemma batch_len_nonneg x : 0 <= batch_len x.
Proof.
  destruct x as [[[[s a] r] sp] d]. unfold batch_len.
  destruct (shape s); lia.
Qed.

Lemma total_len_nonneg (xs : list (sars V)) : 0 <= total_len xs.
Proof.
  induction xs as [|x xs IH]; simpl; [lia|].
  pose proof (batch_len_nonneg x). lia.
Qed.














Lemma init_fields (c : Z) (ss sa sr : list Z) b :
  __init__ zero c ss sa sr = Ok b ->
  _size b = c /\ _contains b = 0 /\
  _s_shape b = ss /\ _a_shape b = sa /\ _r_shape b = sr /\
  _s_size b = prod ss /\ _a_size b = prod sa /\ _r_size b = prod sr /\
  _d_shape b = [] /\ _d_size b = 1 /\
  _sars_size b = prod ss * 2 + prod sa + prod sr + 1 /\
  0 <= c /\ 0 <= _sars_size b /\
  _queue b = mk_matrix (Z.to_nat (_sars_size b))
               (repeat (repeat zero (Z.to_nat (_sars_size b))) (Z.to_nat c)).
Proof.
  unfold __init__, zeros2.
  destruct (c <? 0) eqn:E1; [discriminate|].
  destruct (prod ss * 2 + prod sa + prod sr + 1 <? 0) eqn:E2; [discriminate|].
  cbn [orb rbind].
  destruct (_ || _); [discriminate|].
  destruct (_ <=? _); [discriminate|].
  cbn [rbind]. intros H. injection H as <-. cbn.
  repeat split; lia.
Qed.


End Readiness.

Section Sampling.

Context {V : Type}.

Implicit Types (b : ReplayBuffer V).

Lemma take_rows_ok (rows : list (list V)) (idx : list nat) :
  Forall (fun i => (i < length rows)%nat) idx ->
  take_rows rows idx = Ok (map (fun i => nth i rows []) idx).
Proof.
  induction 1 as [|i idx Hi _ IH]; simpl; [reflexivity|].
  rewrite (nth_error_nth' rows [] Hi), IH. reflexivity.
Qed.

Lemma choice_ok (a n : Z) (perm : list nat) :
  0 <= n <= a -> choice a n perm = Ok (firstn (Z.to_nat n) perm).
Proof.
  intros H. unfold choice.
  destruct (n <? 0) eqn:E1; [lia|].
  destruct (a <=? 0) eqn:E2; destruct (n =? 0) eqn:E3; simpl; try lia;
    destruct (a <? n) eqn:E4; try lia; reflexivity.
Qed.

(** The first [n] entries of a permutation of [range(c)] are [n] distinct
    indices below [c]. *)
Lemma drawn_indices (c n : nat) (perm : list nat) :
  Permutation perm (seq 0 c) -> (n <= c)%nat ->
  length (firstn n perm) = n /\ NoDup (firstn n perm) /\
  Forall (fun i => (i < c)%nat) (firstn n perm).
Proof.
  intros Hp Hn.
  assert (Hlen : length perm = c)
    by (rewrite (Permutation_length Hp); apply length_seq).
  assert (Hnd : NoDup perm)
    by (apply (Permutation_NoDup (Permutation_sym Hp)), seq_NoDup).
  split; [rewrite length_firstn; lia|]. split.
  - rewrite <- (firstn_skipn n perm) in Hnd.
    now apply NoDup_app_remove_r in Hnd.
  - apply Forall_forall. intros i Hi.
    assert (Hin : In i perm).
    { rewrite <- (firstn_skipn n perm). apply in_or_app. now left. }
    apply (Permutation_in _ Hp), in_seq in Hin. lia.
Qed.

(** [sample] on a ready buffer, for a sample size within the capacity. *)
Lemma sample_rows b (n : Z) (perm : list nat) :
  buffer_inv b -> should_sample b = true -> 0 <= n <= _size b ->
  Permutation perm (seq 0 (Z.to_nat (_size b))) ->
  sample n perm b
  = (b, Ok (unpack b (map (fun i => nth i (mrows (_queue b)) [])
                        (firstn (Z.to_nat n) perm)))).
Proof.
  intros (Hcfg & Hsz & Hc & Hr) Hready Hn Hp.
  destruct (drawn_indices (Z.to_nat (_size b)) (Z.to_nat n) perm Hp)
    as (_ & _ & Hlt); [lia|].
  unfold sample, bind, get_self, lift.
  rewrite Hready.
  destruct (_size b <? n) eqn:E; [lia|]. simpl.
  rewrite choice_ok by assumption.
  rewrite take_rows_ok by (unfold nrows in Hr; now rewrite Hr).
  now rewrite decode_rows.
Qed.

(** C4.  Sampling legality: on a ready buffer (in a state that satisfies the
    invariant of the class) and for [0 <= n <= capacity], [sample n] returns
    the decoding of the rows of the store at [n] pairwise distinct indices
    below the capacity, hence [n] rows each resident in the store, and
    leaves the object (contents and fill counter) as it was. *)
Theorem sample_legal b (n : Z) (perm : list nat) :
  buffer_inv b -> should_sample b = true -> 0 <= n <= _size b ->
  Permutation perm (seq 0 (Z.to_nat (_size b))) ->
  exists idx : list nat,
    length idx = Z.to_nat n /\ NoDup idx /\
    Forall (fun i => (i < nrows (_queue b))%nat) idx /\
    Forall (fun i => In (nth i (mrows (_queue b)) []) (mrows (_queue b))) idx /\
    sample n perm b
    = (b, Ok (unpack b (map (fun i => nth i (mrows (_queue b)) []) idx))).
Proof.
  intros Hinv Hready Hn Hp.
  pose proof Hinv as (_ & _ & _ & Hr).
  destruct (drawn_indices (Z.to_nat (_size b)) (Z.to_nat n) perm Hp)
    as (Hlen & Hnd & Hlt); [lia|].
  exists (firstn (Z.to_nat n) perm).
  rewrite Hr. repeat split; try assumption.
  - apply Forall_forall. intros i Hi.
    rewrite Forall_forall in Hlt. apply nth_In.
    unfold nrows in Hr. rewrite Hr. now apply Hlt.
  - now apply sample_rows.
Qed.

(** C5 (amended).  [sample n] raises [ReplayBufferError], and leaves the
    object as it was, whenever the buffer is not ready or [n] exceeds the
    capacity: the same exception in both cases.  On a ready buffer (in a
    state that satisfies the invariant of the class) and for
    [0 <= n <= capacity] it returns five arrays. *)
Theorem sample_errors b (n : Z) (perm : list nat) :
  (should_sample b = false -> sample n perm b = (b, Raise ReplayBufferError))
  /\ (_size b < n -> sample n perm b = (b, Raise ReplayBufferError))
  /\ (buffer_inv b ->
      Permutation perm (seq 0 (Z.to_nat (_size b))) ->
      should_sample b = true -> 0 <= n <= _size b ->
      exists res, sample n perm b = (b, Ok res)).
Proof.
  repeat split.
  - intros H. unfold sample, bind, get_self, lift. now rewrite H.
  - intros H. unfold sample, bind, get_self, lift.
    destruct (_size b <? n) eqn:E; [|lia].
    now rewrite orb_true_r.
  - intros Hinv Hp Hready Hn. eexists. now apply sample_rows.
Qed.

End Sampling.

Section Fifo.

Context {V : Type}.
Variable zero : V.

Implicit Types (b : ReplayBuffer V) (m q : matrix V) (t : transition V).

(** The evicting insert of [n <= capacity] rows of the width of the queue:
    the first [n] rows leave, the others move to the front, the new rows
    take the end. *)
Lemma insert_rows b m :
  ncols m = ncols (_queue b) ->
  (1 <= nrows m <= nrows (_queue b))%nat ->
  (_pop (Z.of_nat (nrows m)) ;;; _push m) b
  = (with_queue b
       (mk_matrix (ncols (_queue b))
          (skipn (nrows m) (mrows (_queue b)) ++ mrows m)),
     Ok tt).
Proof.
  intros Hc Hn. unfold bind at 1.
  rewrite pop_rows by lia.
  set (b1 := with_queue b _).
  assert (Hlen : nrows (_queue b1) = nrows (_queue b)).
  { unfold b1, nrows. cbn [_queue with_queue mrows].
    rewrite length_app, !length_skipn. unfold nrows in Hn. lia. }
  assert (Hcol : ncols (_queue b1) = ncols (_queue b)) by reflexivity.
  rewrite push_rows by (rewrite ?Hcol, ?Hlen; (assumption || lia)).
  rewrite Hlen. unfold b1. cbn [_queue with_queue ncols mrows].
  rewrite with_queue_twice. do 3 f_equal.
  unfold nrows in *.
  rewrite firstn_app, length_skipn.
  replace (length (mrows (_queue b)) - length (mrows m)
           - (length (mrows (_queue b)) - length (mrows m)))%nat
    with 0%nat by lia.
  rewrite firstn_all2 by (rewrite length_skipn; lia).
  simpl. now rewrite app_nil_r.
Qed.

(** What [store_example] encodes for a transition that fits a buffer with
    one-element actions and rewards. *)
Lemma encoded_transition b t :
  _a_size b = 1 -> _r_size b = 1 -> fits b t ->
  encoded (expand_dims0 (t_s t), expand_dims0 (t_a t), expand_dims0 (t_r t),
           expand_dims0 (t_sp t), expand_dims0 (t_d t))
  = Ok (mk_matrix (record_width b) [record_of t]).
Proof.
  intros Ha Hr (Ws & Wa & Wr & Wsp & Wd & Zs & Za & Zr & Zsp & Zd).
  rewrite Ha in Za. rewrite Hr in Zr.
  change (Z.to_nat 1) with 1%nat in *.
  unfold encoded.
  rewrite (encode_rows 1 (Z.to_nat (_s_size b)) 1 1 (Z.to_nat (_s_size b)) 1);
    try lia;
    try (split; unfold flatten, expand_dims0, size; simpl;
         unfold size in *; rewrite ?Zs, ?Za, ?Zr, ?Zsp, ?Zd; simpl;
         (reflexivity || lia)).
  unfold flatten, expand_dims0. cbn [data].
  unfold wf_ndarray in *.
  rewrite !rows_of_one by congruence.
  unfold record_width. rewrite Ha, Hr. reflexivity.
Qed.

Lemma with_fields_same b : with_queue (with_contains b (_contains b)) (_queue b) = b.
Proof. destruct b; reflexivity. Qed.

Lemma counted_as_with b (n : nat) :
  exists c', counted b n = with_contains b c' /\
             Z.min (_contains b + Z.of_nat n) (_size b) <= c'.
Proof.
  unfold counted, should_sample.
  destruct (Z.leb_spec (_size b) (_contains b)).
  - exists (_contains b). split; [destruct b; reflexivity | lia].
  - eexists. split; [reflexivity | lia].
Qed.

Lemma store_transition_rows b t :
  pushable b -> fits b t ->
  store_transition t b
  = (with_queue (counted b 1)
       (mk_matrix (ncols (_queue b))
          (skipn 1 (mrows (_queue b)) ++ [record_of t])),
     Ok tt).
Proof.
  intros (Ha & Hr & Hc & Hn) Hfit.
  unfold store_transition, store_example.
  change (store_example_batch ?s ?a ?r ?sp ?d) with (push (s, a, r, sp, d)).
  rewrite push_unfold, (encoded_transition b t Ha Hr Hfit).
  rewrite insert_rows; rewrite ?counted_queue; try reflexivity.
  - now rewrite Hc.
  - unfold nrows at 1 2. simpl. lia.
Qed.

(** The queue after pushing [ts] one at a time. *)
Lemma store_all_rows (ts : list (transition V)) b :
  pushable b -> Forall (fits b) ts ->
  exists c' q',
    store_all ts b = (with_queue (with_contains b c') q', Ok tt) /\
    ncols q' = ncols (_queue b) /\
    mrows q' = skipn (length ts) (mrows (_queue b) ++ map record_of ts) /\
    Z.min (_contains b + Z.of_nat (length ts)) (_size b) <= c'.
Proof.
  revert b; induction ts as [|t ts IH]; intros b Hp Hfits.
  - exists (_contains b), (_queue b). simpl.
    rewrite with_fields_same, app_nil_r. unfold ret.
    repeat split; lia.
  - inversion Hfits as [|? ? Hfit Hfits']; subst.
    simpl store_all. unfold bind at 1.
    rewrite (store_transition_rows b t Hp Hfit).
    destruct (counted_as_with b 1) as (c1 & -> & Hc1).
    set (q1 := mk_matrix _ _).
    pose proof Hp as (Ha & Hr & Hc & Hn).
    destruct (IH (with_queue (with_contains b c1) q1)) as (c' & q' & E & Hq & Hrows & Hc').
    + repeat split; try assumption.
      unfold nrows, q1. simpl. rewrite length_app. simpl. lia.
    + exact Hfits'.
    + exists c', q'. rewrite E. split; [reflexivity|].
      split; [exact Hq|]. split.
      * rewrite Hrows. unfold q1. cbn [_queue with_queue mrows].
        unfold nrows in Hn.
        destruct (mrows (_queue b)) as [|r0 Q]; [simpl in Hn; lia|].
        simpl. now rewrite <- app_assoc.
      * simpl in Hc' |- *. lia.
Qed.

(** Records of transitions decode to the arrays of their fields. *)
Lemma unpack_records b (ts : list (transition V)) :
  Forall (fits b) ts -> unpack b (map record_of ts) = batch b ts.
Proof.
  intros Hfits.
  assert (E : map record_of ts
              = hcat (hcat (hcat (hcat (map (fun t => data (t_s t)) ts)
                                       (map (fun t => data (t_a t)) ts))
                                 (map (fun t => data (t_r t)) ts))
                           (map (fun t => data (t_d t)) ts))
                     (map (fun t => data (t_sp t)) ts)).
  { rewrite !hcat_map. reflexivity. }
  unfold unpack, batch. rewrite E.
  destruct (fields_of_hcat (length ts) (Z.to_nat (_s_size b))
              (Z.to_nat (_a_size b)) (Z.to_nat (_r_size b)) 1
              (map (fun t => data (t_s t)) ts)
              (map (fun t => data (t_a t)) ts)
              (map (fun t => data (t_r t)) ts)
              (map (fun t => data (t_d t)) ts)
              (map (fun t => data (t_sp t)) ts))
    as (F1 & F2 & F3 & F4 & F5);
    try apply length_map;
    try (apply Forall_map; revert Hfits; apply Forall_impl;
         intros t (Ws & Wa & Wr & Wsp & Wd & Zs & Za & Zr & Zsp & Zd);
         unfold wf_ndarray in *; congruence).
  now rewrite F1, F2, F3, F4, F5.
Qed.

Lemma nth_records (w : list (transition V)) (t0 : transition V)
    (idx : list nat) :
  Forall (fun i => (i < length w)%nat) idx ->
  map (fun i => nth i (map record_of w) []) idx
  = map record_of (map (fun i => nth i w t0) idx).
Proof.
  intros H. rewrite map_map. apply map_ext_in. intros i Hi.
  rewrite Forall_forall in H.
  rewrite (nth_indep _ [] (record_of t0))
    by (rewrite length_map; now apply H).
  apply map_nth.
Qed.

(** On a buffer without rows a push by [store_example] returns and stores
    nothing. *)
Lemma zero_capacity_push (ss sa sr : list Z) b0 t :
  __init__ zero 0 ss sa sr = Ok b0 ->
  positive_shape ss -> prod sa = 1 -> prod sr = 1 ->
  fits b0 t -> store_transition t b0 = (b0, Ok tt).
Proof.
  intros Hinit Hps Ha1 Hr1 Hfit.
  destruct (init_fields _ _ _ _ _ _ Hinit)
    as (Esz & Ect & Ess & Esa & Esr & Es & Ea & Er & Ed & Ed1 & Ew & _ & Hw & Eq).
  pose proof (prod_positive _ Hps) as Ps.
  assert (Hready : should_sample b0 = true)
    by (unfold should_sample; rewrite Esz, Ect; reflexivity).
  assert (Ha : _a_size b0 = 1) by congruence.
  assert (Hr : _r_size b0 = 1) by congruence.
  unfold store_transition, store_example.
  change (store_example_batch ?s ?a ?r ?sp ?d) with (push (s, a, r, sp, d)).
  rewrite push_unfold, (encoded_transition b0 t Ha Hr Hfit).
  unfold counted. rewrite Hready. unfold bind.
  change (nrows (mk_matrix (record_width b0) [record_of t])) with 1%nat.
  rewrite pop_rows by lia.
  assert (Hwidth : Z.to_nat (_sars_size b0) = record_width b0).
  { unfold record_width. rewrite Ew, Es, Ea, Er, Ha1, Hr1. lia. }
  rewrite Eq. cbn [ncols mrows repeat Z.to_nat skipn app].
  unfold _push, bind, get_self, lift, set_queue, set_rows, nrows.
  cbn [_queue with_queue mrows length Z.of_nat].
  unfold slice_bounds, norm_index. cbn [ncols].
  unfold broadcast, nrows. cbn [ncols mrows length].
  rewrite Hwidth, Nat.eqb_refl. cbn.
  rewrite with_queue_twice.
  replace (mk_matrix (record_width b0) []) with (_queue b0)
    by (rewrite Eq, Hwidth; reflexivity).
  now rewrite with_queue_same.
Qed.

Lemma zero_capacity_store_all (ss sa sr : list Z) b0
    (ts : list (transition V)) :
  __init__ zero 0 ss sa sr = Ok b0 ->
  positive_shape ss -> prod sa = 1 -> prod sr = 1 ->
  Forall (fits b0) ts -> store_all ts b0 = (b0, Ok tt).
Proof.
  intros Hinit Hps Ha1 Hr1.
  induction 1 as [|t ts Ht _ IH]; [reflexivity|].
  simpl store_all. unfold bind at 1.
  now rewrite (zero_capacity_push ss sa sr b0 t Hinit Hps Ha1 Hr1 Ht).
Qed.

(** The evicting insert on elements of one type: from a new buffer of
    capacity [c] whose action and reward shapes hold one element, pushing
    [c + k] transitions one at a time with [store_example] succeeds;
    afterwards the buffer is ready, the rows of the store are the records
    of the last [c] transitions pushed, in the order of the pushes (row 0
    the oldest retained), and every [sample n], [0 <= n <= c], returns the
    arrays of [n] transitions that are all among those last [c]. *)
Lemma fifo_rows (c : Z) (ss sa sr : list Z) b0
    (ts : list (transition V)) (k : nat) :
  __init__ zero c ss sa sr = Ok b0 ->
  positive_shape ss -> positive_shape sa -> positive_shape sr ->
  prod sa = 1 -> prod sr = 1 ->
  Forall (fits b0) ts ->
  length ts = (Z.to_nat c + k)%nat ->
  exists b',
    store_all ts b0 = (b', Ok tt) /\
    should_sample b' = true /\
    mrows (_queue b') = map record_of (skipn k ts) /\
    forall (n : Z) (perm : list nat),
      0 <= n <= c -> Permutation perm (seq 0 (Z.to_nat c)) ->
      exists picked,
        length picked = Z.to_nat n /\ incl picked (skipn k ts) /\
        sample n perm b' = (b', Ok (batch b' picked)).
Proof.
  intros Hinit Hps Hpa Hpr Ha1 Hr1 Hfits Hlen.
  destruct (init_fields _ _ _ _ _ _ Hinit)
    as (Esz & Ect & Ess & Esa & Esr & Es & Ea & Er & Ed & Ed1 & Ew & Hc & Hw & Eq).
  pose proof (prod_positive _ Hps) as Ps.
  assert (Hwidth : Z.to_nat (_sars_size b0) = record_width b0).
  { unfold record_width. rewrite Ew, Es, Ea, Er, Ha1, Hr1. lia. }
  assert (Hall : exists c' q',
             store_all ts b0 = (with_queue (with_contains b0 c') q', Ok tt) /\
             ncols q' = ncols (_queue b0) /\
             mrows q'
             = skipn (length ts) (mrows (_queue b0) ++ map record_of ts) /\
             Z.min (_contains b0 + Z.of_nat (length ts)) (_size b0) <= c').
  { destruct (Z.eq_dec c 0) as [-> | Hc0].
    - exists (_contains b0), (_queue b0).
      rewrite with_fields_same.
      split; [exact (zero_capacity_store_all ss sa sr b0 ts Hinit Hps Ha1
                       Hr1 Hfits)|].
      split; [reflexivity|]. split; [|lia].
      rewrite Eq. cbn [mrows Z.to_nat repeat app].
      rewrite skipn_all2 by (rewrite length_map; lia). reflexivity.
    - apply store_all_rows; [|exact Hfits].
      unfold pushable. rewrite Ea, Er, Eq. unfold nrows. simpl.
      rewrite repeat_length. repeat split; try assumption; lia. }
  destruct Hall as (c' & q' & E & Hq & Hrows & Hc').
  set (b' := with_queue (with_contains b0 c') q') in *.
  assert (Hrows' : mrows q' = map record_of (skipn k ts)).
  { rewrite Hrows, Eq. cbn [mrows].
    rewrite skipn_app, repeat_length, Hlen.
    rewrite skipn_all2 by (rewrite repeat_length; lia).
    replace (Z.to_nat c + k - Z.to_nat c)%nat with k by lia.
    simpl. apply skipn_map. }
  assert (Hwin : Forall (fits b0) (skipn k ts)).
  { apply Forall_forall. intros t Ht. rewrite Forall_forall in Hfits.
    apply Hfits. rewrite <- (firstn_skipn k ts). apply in_or_app. now right. }
  assert (Hlenw : length (skipn k ts) = Z.to_nat c)
    by (rewrite length_skipn; lia).
  assert (Hinv : buffer_inv b').
  { unfold buffer_inv, configured, b'. cbn.
    rewrite Ess, Esa, Esr, Hq, Eq. cbn [ncols].
    repeat split; try assumption; try lia.
    unfold nrows. rewrite Hrows', length_map, Hlenw. now rewrite Esz. }
  assert (Hready : should_sample b' = true).
  { unfold should_sample, b'. cbn. apply Z.leb_le. rewrite Ect in Hc'. lia. }
  exists b'. split; [exact E|]. split; [exact Hready|].
  split; [exact Hrows'|].
  intros n perm Hn Hperm.
  assert (Hsz' : _size b' = c) by exact Esz.
  rewrite <- Hsz' in Hn, Hperm.
  rewrite (sample_rows b' n perm Hinv Hready Hn Hperm).
  destruct (drawn_indices (Z.to_nat (_size b')) (Z.to_nat n) perm Hperm)
    as (Hl & _ & Hlt); [lia|].
  set (e0 := mk_ndarray [] [] : ndarray V).
  set (t0 := mk_transition e0 e0 e0 e0 e0).
  exists (map (fun i => nth i (skipn k ts) t0) (firstn (Z.to_nat n) perm)).
  rewrite Hsz' in Hlt. rewrite <- Hlenw in Hlt.
  split; [now rewrite length_map|]. split.
  - intros t Ht. apply in_map_iff in Ht as (i & <- & Hi).
    rewrite Forall_forall in Hlt. apply nth_In. now apply Hlt.
  - do 2 f_equal. change (_queue b') with q'. rewrite Hrows'.
    rewrite (nth_records _ t0) by assumption.
    apply unpack_records.
    apply Forall_map, Forall_forall. intros i Hi.
    rewrite Forall_forall in Hwin, Hlt. apply Hwin, nth_In. now apply Hlt.
Qed.

End Fifo.

Section Invariant.

Context {V : Type}.
Variable zero : V.

Implicit Types (b : ReplayBuffer V) (m q : matrix V) (x : sars V).

Lemma norm_index_range (len i : Z) :
  0 <= len -> 0 <= norm_index len i <= len.
Proof. intros H. unfold norm_index. destruct (Z.ltb_spec i 0); lia. Qed.

Lemma slice_bounds_range (len : nat) (lo hi : option Z) :
  (fst (slice_bounds len lo hi) + snd (slice_bounds len lo hi) <= len)%nat.
Proof.
  unfold slice_bounds. cbn [fst snd].
  assert (Hlen : 0 <= Z.of_nat len) by lia.
  destruct lo as [i|]; [pose proof (norm_index_range _ i Hlen)|];
    (destruct hi as [j|]; [pose proof (norm_index_range _ j Hlen)|]); lia.
Qed.

Lemma length_concat_repeat {A} (l : list A) (n : nat) :
  length (concat (repeat l n)) = (n * length l)%nat.
Proof.
  induction n as [|n IH]; simpl; [reflexivity|].
  now rewrite length_app, IH.
Qed.

Lemma broadcast_length (cnt w : nat) m (rs : list (list V)) :
  broadcast cnt w m = Ok rs -> length rs = cnt.
Proof.
  unfold broadcast.
  assert (H : forall cols : list (list V),
             length cols = nrows m ->
             (if Nat.eqb (nrows m) cnt then Ok cols
              else if Nat.eqb (nrows m) 1 then Ok (concat (repeat cols cnt))
                   else Raise ValueError) = Ok rs ->
             length rs = cnt).
  { intros cols Hl.
    destruct (Nat.eqb_spec (nrows m) cnt) as [E|E].
    - intros [= <-]. congruence.
    - destruct (Nat.eqb_spec (nrows m) 1) as [E1|E1]; [|discriminate].
      intros [= <-]. rewrite length_concat_repeat. lia. }
  destruct (Nat.eqb (ncols m) w); [| destruct (Nat.eqb (ncols m) 1)];
    cbn [rbind]; try discriminate; apply H;
    [reflexivity | apply length_map].
Qed.

(** A slice assignment keeps the shape of the array. *)
Lemma set_rows_shape q (lo hi : option Z) m q' :
  set_rows q lo hi m = Ok q' -> ncols q' = ncols q /\ nrows q' = nrows q.
Proof.
  unfold set_rows.
  pose proof (slice_bounds_range (nrows q) lo hi) as Hr.
  destruct (slice_bounds (nrows q) lo hi) as [start cnt]. simpl in Hr.
  destruct (broadcast cnt (ncols q) m) as [rs|e] eqn:E; [|discriminate].
  cbn [rbind]. intros [= <-]. split; [reflexivity|].
  apply broadcast_length in E.
  unfold nrows in *. cbn [mrows].
  rewrite !length_app, length_firstn, length_skipn. lia.
Qed.

Lemma pop_inv b (n : Z) : buffer_inv b -> buffer_inv (fst (_pop n b)).
Proof.
  intros Hinv. unfold _pop, bind, get_self, lift, set_queue.
  destruct (set_rows _ _ _ _) as [q'|e] eqn:E; [|exact Hinv].
  apply set_rows_shape in E as [E1 E2].
  destruct Hinv as (Hc & Hs & Hw & Hn).
  split; [exact Hc | split; [exact Hs | split]]; simpl; congruence.
Qed.

Lemma push_rows_inv b m : buffer_inv b -> buffer_inv (fst (_push m b)).
Proof.
  intros Hinv. unfold _push, bind, get_self, lift, set_queue.
  destruct (set_rows _ _ _ _) as [q'|e] eqn:E; [|exact Hinv].
  apply set_rows_shape in E as [E1 E2].
  destruct Hinv as (Hc & Hs & Hw & Hn).
  split; [exact Hc | split; [exact Hs | split]]; simpl; congruence.
Qed.

Lemma counted_inv b (n : nat) : buffer_inv b -> buffer_inv (counted b n).
Proof.
  intros Hinv. unfold counted. destruct (should_sample b); exact Hinv.
Qed.

(** Every call of [store_example_batch] keeps the invariant, whether it
    returns or raises. *)
Lemma push_inv x b : buffer_inv b -> buffer_inv (fst (push x b)).
Proof.
  intros Hinv. rewrite push_unfold.
  destruct (encoded x) as [m|e]; [|exact Hinv].
  unfold bind.
  pose proof (pop_inv (counted b (nrows m)) (Z.of_nat (nrows m))
                (counted_inv b (nrows m) Hinv)) as H1.
  destruct (_pop _ _) as [b1 [u|e]]; [|exact H1].
  exact (push_rows_inv b1 m H1).
Qed.

Lemma init_inv (c : Z) (ss sa sr : list Z) b :
  __init__ zero c ss sa sr = Ok b ->
  positive_shape ss -> positive_shape sa -> positive_shape sr ->
  buffer_inv b.
Proof.
  intros Hinit Hs Ha Hr.
  destruct (init_fields _ _ _ _ _ _ Hinit)
    as (Esz & Ect & Ess & Esa & Esr & Es & Ea & Er & Ed & Ed1 & Ew
        & Hc & Hw & Eq).
  unfold buffer_inv, configured.
  rewrite Ess, Esa, Esr, Es, Ea, Er, Ed1, Eq. unfold nrows. cbn [ncols mrows].
  rewrite repeat_length, Esz.
  repeat split; try assumption; try reflexivity; try lia.
Qed.

(** The invariant holds in every state reached from a new buffer. *)
Lemma reachable_inv (c : Z) (ss sa sr : list Z) b0 (xs : list (sars V)) :
  __init__ zero c ss sa sr = Ok b0 ->
  positive_shape ss -> positive_shape sa -> positive_shape sr ->
  buffer_inv (run_pushes xs b0).
Proof.
  intros Hinit Hs Ha Hr.
  pose proof (init_inv _ _ _ _ _ Hinit Hs Ha Hr) as Hinv.
  clear Hinit. revert b0 Hinv.
  induction xs as [|x xs IH]; intros b Hinv; [exact Hinv|].
  change (run_pushes (x :: xs) b) with (run_pushes xs (fst (push x b))).
  apply IH, push_inv, Hinv.
Qed.

End Invariant.

Section Rejections.

Context {V : Type}.
Variable zero : V.

Implicit Types (b : ReplayBuffer V) (m q : matrix V)
  (s a r sp d : ndarray V).

(** C6 (amended).  A push that the encoder refuses leaves the object exactly
    as it was, and raises the encoder's exception; in particular every push
    that fails with [ReplayBufferError] (the check of the leading
    dimensions) leaves the contents and the fill counter unchanged. *)
Theorem rejected_push_atomic b s a r sp d :
  (forall e,
     _encode_sarses s (flatten a) (flatten r) sp (flatten d) = Raise e ->
     store_example_batch s a r sp d b = (b, Raise e))
  /\ (snd (store_example_batch s a r sp d b) = Raise ReplayBufferError ->
      fst (store_example_batch s a r sp d b) = b).
Proof.
  change (store_example_batch s a r sp d) with (push (s, a, r, sp, d)).
  split.
  - intros e He. now apply push_rejected.
  - destruct (encoded (s, a, r, sp, d)) as [m|e] eqn:E.
    + destruct (push_accepted _ b m E) as (q & _ & _ & [H | H]);
        rewrite H; discriminate.
    + now rewrite (push_rejected _ b e E).
Qed.

Lemma leads_flatten (n : nat) a :
  leads n 1 a -> leads n 1 (flatten a).
Proof.
  intros [_ H]. unfold leads, flatten, size in *. simpl.
  rewrite H. split; [f_equal; lia | lia].
Qed.

(** C7 (amended).  For five arrays with the same leading dimension
    [n >= 1], whatever their per-example element counts [ks], [ka], [kr],
    [ksp], [kd]: (1) the encoder returns the [n] concatenated rows: it
    checks no element count.  For the push of such a batch into a queue of
    records of [_sars_size] elements, which flattens actions, rewards and
    flags first: (2) when actions, rewards or flags have another element
    count than 1, the push raises [ReplayBufferError] and leaves the
    object as it was, whatever the counts add up to; when all three have
    one element, (3) if the element counts of state and next state and the
    three single elements do not add up to [_sars_size], the push raises
    [ValueError], from the slice assignment of [_push]; (4) if they add
    up, and [n] is at most the number of rows, the push returns, even if
    state and next state have other element counts than the configured
    shape. *)
Theorem width_mismatch b (n ks ka kr ksp kd : nat) s a r sp d :
  (1 <= n)%nat ->
  leads n ks s -> leads n ka a -> leads n kr r -> leads n ksp sp ->
  leads n kd d ->
  ncols (_queue b) = Z.to_nat (_sars_size b) ->
  (exists m, _encode_sarses s a r sp d = Ok m /\
             ncols m = (ks + ka + kr + kd + ksp)%nat /\ nrows m = n)
  /\ (ka <> 1%nat \/ kr <> 1%nat \/ kd <> 1%nat ->
      store_example_batch s a r sp d b = (b, Raise ReplayBufferError))
  /\ (ka = 1%nat -> kr = 1%nat -> kd = 1%nat ->
      (ks + ksp + 3)%nat <> Z.to_nat (_sars_size b) ->
      snd (store_example_batch s a r sp d b) = Raise ValueError)
  /\ (ka = 1%nat -> kr = 1%nat -> kd = 1%nat ->
      (ks + ksp + 3)%nat = Z.to_nat (_sars_size b) ->
      (n <= nrows (_queue b))%nat ->
      snd (store_example_batch s a r sp d b) = Ok tt).
Proof.
  intros Hn Hs Ha Hr Hsp Hd Hw.
  assert (Hlen : forall k1 k2 k3 k4 k5 (x1 x2 x3 x4 x5 : ndarray V),
             length (hcat (hcat (hcat (hcat (rows_of n k1 (data x1))
                                            (rows_of n k2 (data x2)))
                                      (rows_of n k3 (data x3)))
                                (rows_of n k4 (data x4)))
                          (rows_of n k5 (data x5))) = n).
  { intros. repeat apply hcat_length_eq; apply rows_of_length. }
  split; [|split; [|split]].
  - eexists. split; [apply (encode_rows n ks ka kr ksp kd); assumption|].
    split; [reflexivity | apply Hlen].
  - intros Hk.
    change (store_example_batch s a r sp d) with (push (s, a, r, sp, d)).
    apply push_rejected.
    unfold encoded, _encode_sarses.
    rewrite (leads_shape0 _ _ _ Hs), (leads_shape0 _ _ _ Hsp).
    unfold shape0, flatten. cbn [shape rbind].
    destruct Ha as [_ Za], Hr as [_ Zr], Hd as [_ Zd].
    destruct (Nat.eqb_spec n (size a)) as [E1|E1]; [|reflexivity].
    cbn [negb].
    destruct (Nat.eqb_spec n (size r)) as [E2|E2]; [|reflexivity].
    cbn [negb]. rewrite Nat.eqb_refl. cbn [negb].
    destruct (Nat.eqb_spec n (size d)) as [E3|E3]; [|reflexivity].
    exfalso. nia.
  - intros -> -> -> Hne.
    change (store_example_batch s a r sp d) with (push (s, a, r, sp, d)).
    rewrite push_unfold. unfold encoded.
    rewrite (encode_rows n ks 1 1 ksp 1)
      by (assumption || now apply leads_flatten).
    set (m := mk_matrix _ _). unfold bind.
    destruct (pop_cases (counted b (nrows m)) (Z.of_nat (nrows m)))
      as [[rows ->] | ->]; [|reflexivity].
    rewrite push_wrong_width; [reflexivity | |];
      cbn [_queue with_queue ncols m]; rewrite ?counted_queue; lia.
  - intros -> -> -> He Hcap.
    change (store_example_batch s a r sp d) with (push (s, a, r, sp, d)).
    rewrite push_unfold. unfold encoded.
    rewrite (encode_rows n ks 1 1 ksp 1)
      by (assumption || now apply leads_flatten).
    set (m := mk_matrix _ _).
    assert (Hm : nrows m = n) by apply Hlen.
    rewrite insert_rows; [reflexivity | |];
      rewrite counted_queue; [cbn [ncols m]; lia | lia].
Qed.

(** A batch of more rows than a non-empty queue has: the counter has been
    increased (while the gate was closed) when the slice assignment of
    [_push] raises; the rows of the queue are as before. *)
Lemma push_over_capacity (x : sars V) b m :
  encoded x = Ok m ->
  (1 <= nrows (_queue b) < nrows m)%nat ->
  push x b = (counted b (nrows m), Raise ValueError).
Proof.
  intros E Hn. rewrite push_unfold, E. unfold bind.
  rewrite pop_rows by lia.
  rewrite counted_queue.
  rewrite (skipn_all2 (n := nrows m)) by (unfold nrows in *; lia).
  replace (nrows (_queue b) - nrows m)%nat with 0%nat by lia.
  simpl skipn. simpl app.
  replace (mk_matrix (ncols (_queue b)) (mrows (_queue b)))
    with (_queue (counted b (nrows m)))
    by (rewrite counted_queue; destruct (_queue b); reflexivity).
  rewrite with_queue_same.
  rewrite push_too_many by (rewrite counted_queue; lia).
  reflexivity.
Qed.

(** C9 on the code.  The constructor cannot be called as the claim says:
    called with the three shapes that its signature takes, it raises
    [NameError] at [self._size = size], for the module binds no name
    [size]; called with any other number of arguments, a capacity and
    three shapes among them, it raises [TypeError].  No call returns a
    buffer. *)
Theorem construction_raises (args : list pyval) :
  ReplayBuffer_call zero module_size args
  = Raise (if Nat.eqb (length args) 3 then NameError else TypeError).
Proof.
  unfold ReplayBuffer_call, module_size.
  destruct args as [|x1 [|x2 [|x3 [|x4 rest]]]]; reflexivity.
Qed.

(** C10.  On a buffer whose action shape or reward shape holds more than
    one element, [store_example_batch] on a batch of [n >= 1] transitions
    whose states, actions and rewards have the configured shapes (whatever
    the next states and the flags) raises [ReplayBufferError] and stores
    nothing: the flattened actions (rewards) have the leading dimension
    [n * k], which differs from [n]. *)
Theorem vector_actions_rejected b (n : nat) s a r sp d :
  configured b -> (1 <= n)%nat ->
  shape s = n :: map Z.to_nat (_s_shape b) ->
  shape a = n :: map Z.to_nat (_a_shape b) ->
  shape r = n :: map Z.to_nat (_r_shape b) ->
  1 < _a_size b \/ 1 < _r_size b ->
  store_example_batch s a r sp d b = (b, Raise ReplayBufferError).
Proof.
  intros (Hps & Hpa & Hpr & Es & Ea & Er & _) Hn Hs Ha Hr Hk.
  pose proof (prod_positive _ Hpa) as Pa.
  pose proof (prod_positive _ Hpr) as Pr.
  change (store_example_batch s a r sp d) with (push (s, a, r, sp, d)).
  apply push_rejected.
  unfold encoded, _encode_sarses, shape0, flatten. cbn [shape].
  rewrite Hs. cbn [rbind].
  assert (Za : size a = (n * Z.to_nat (_a_size b))%nat).
  { unfold size. rewrite Ha. simpl. now rewrite size_nat_shape, Ea. }
  assert (Zr : size r = (n * Z.to_nat (_r_size b))%nat).
  { unfold size. rewrite Hr. simpl. now rewrite size_nat_shape, Er. }
  destruct (Nat.eqb_spec n (size a)) as [E1|E1]; [|reflexivity].
  cbn [negb].
  destruct (Nat.eqb_spec n (size r)) as [E2|E2]; [|reflexivity].
  exfalso. rewrite <- Ea, <- Er in *. nia.
Qed.

End Rejections.

(** * The properties on concrete buffers *)

Ltac shape_facts :=
  unfold configured, buffer_inv, positive_shape, valid_batch, batch_of,
    leads, fits, wf_ndarray, nrows;
  simpl; repeat split; repeat constructor; try reflexivity; try lia.

Lemma new_buffer_init : __init__ 0 4 [2] [] [] = Ok (new_buffer 4).
Proof. reflexivity. Qed.

(** [full_buffer] is the new buffer after four pushes. *)
Lemma after_markers_full : after_markers 4 [0; 1; 2; 3] = full_buffer.
Proof. reflexivity. Qed.

Lemma full_buffer_inv : buffer_inv full_buffer.
Proof. shape_facts. Qed.



(** C4 at the full buffer of the scenario. *)
Lemma sample_legal_witness :
  exists idx : list nat,
    length idx = 2%nat /\ NoDup idx /\
    Forall (fun i => (i < 4)%nat) idx /\
    Forall (fun i =>
              In (nth i (mrows (_queue full_buffer)) [])
                 (mrows (_queue full_buffer))) idx /\
    sample 2 [1; 0; 2; 3]%nat full_buffer
    = (after_markers 4 [0; 1; 2; 3],
       Ok (unpack full_buffer
             (map (fun i =>
                     nth i (mrows (_queue full_buffer)) [])
                idx))).
Proof.
  apply (sample_legal full_buffer 2 [1; 0; 2; 3]%nat).
  - apply full_buffer_inv.
  - reflexivity.
  - simpl; lia.
  - apply perm_swap.
Defined.

(** C5 (amended) at the buffers of the scenario: not ready, more than the
    capacity, and a sample of two. *)
Lemma sample_errors_witness :
  sample 1 [0; 1; 2; 3]%nat (new_buffer 4)
  = (new_buffer 4, Raise ReplayBufferError)
  /\ sample 5 [1; 0; 2; 3]%nat full_buffer
     = (full_buffer, Raise ReplayBufferError)
  /\ exists res,
       sample 2 [1; 0; 2; 3]%nat full_buffer = (full_buffer, Ok res).
Proof.
  split; [|split].
  - apply (proj1 (sample_errors (new_buffer 4) 1 [0; 1; 2; 3]%nat)).
    reflexivity.
  - apply (proj1 (proj2 (sample_errors full_buffer 5 [1; 0; 2; 3]%nat))).
    simpl; lia.
  - apply (proj2 (proj2 (sample_errors full_buffer 2 [1; 0; 2; 3]%nat))).
    + apply full_buffer_inv.
    + apply perm_swap.
    + reflexivity.
    + simpl; lia.
Defined.

(** C5 as stated fails: a sample from a buffer that is not ready and a
    sample of more than the capacity from a ready buffer raise the same
    exception. *)
Lemma sample_error_kinds_coincide :
  should_sample (new_buffer 4) = false /\
  should_sample full_buffer = true /\
  snd (sample 1 [0; 1; 2; 3]%nat (new_buffer 4))
  = Raise ReplayBufferError /\
  snd (sample 5 [0; 1; 2; 3]%nat full_buffer)
  = Raise ReplayBufferError.
Proof. repeat split. Qed.

(** C6 (amended) at a batch whose actions have another leading dimension
    than its states. *)
Lemma rejected_push_atomic_witness :
  store_example_batch (table 2 2 [1; 1; 2; 2]) (vector [1; 2; 3])
    (vector [10; 20]) (table 2 2 [2; 2; 3; 3]) (vector [0; 0]) full_buffer
  = (full_buffer, Raise ReplayBufferError)
  /\ fst (store_example_batch (table 2 2 [1; 1; 2; 2]) (vector [1; 2; 3])
            (vector [10; 20]) (table 2 2 [2; 2; 3; 3]) (vector [0; 0])
            full_buffer)
     = full_buffer.
Proof.
  split.
  - apply (proj1 (rejected_push_atomic full_buffer (table 2 2 [1; 1; 2; 2])
                    (vector [1; 2; 3]) (vector [10; 20])
                    (table 2 2 [2; 2; 3; 3]) (vector [0; 0]))).
    reflexivity.
  - apply (proj2 (rejected_push_atomic full_buffer (table 2 2 [1; 1; 2; 2])
                    (vector [1; 2; 3]) (vector [10; 20])
                    (table 2 2 [2; 2; 3; 3]) (vector [0; 0]))).
    reflexivity.
Defined.

(** C6 as stated fails: the push of a transition whose state has three
    elements, into the buffer of capacity 4 that holds the marker 0, raises
    [ValueError] after the counter went from 1 to 2 and the rows moved up. *)
Lemma failing_push_mutates :
  let b := after_markers 4 [0] in
  let res := store_example (vector [7; 7; 7]) (scalar 1) (scalar 1)
               (vector [8; 8]) (scalar 0) b in
  snd res = Raise ValueError /\
  _contains b = 1 /\ _contains (fst res) = 2 /\
  mrows (_queue b)
  = [[0; 0; 0; 0; 0; 0; 0]; [0; 0; 0; 0; 0; 0; 0]; [0; 0; 0; 0; 0; 0; 0];
     [0; 0; 0; 0; 0; 1; 1]] /\
  mrows (_queue (fst res))
  = [[0; 0; 0; 0; 0; 0; 0]; [0; 0; 0; 0; 0; 0; 0]; [0; 0; 0; 0; 0; 1; 1];
     [0; 0; 0; 0; 0; 1; 1]] /\
  fst res <> b.
Proof.
  repeat split. vm_compute. discriminate.
Qed.

(** C7 (amended) at a transition whose state has three elements, for the
    configured two; at a transition whose action has two elements, on
    buffers of records of 7 and of 8 elements; and at a transition whose
    state has three elements and whose next state has one. *)
Lemma width_mismatch_witness :
  (exists m,
     _encode_sarses (table 1 3 [7; 7; 7]) (vector [1]) (vector [1])
       (table 1 2 [8; 8]) (vector [0]) = Ok m /\
     ncols m = 8%nat /\ nrows m = 1%nat)
  /\ snd (store_example_batch (table 1 3 [7; 7; 7]) (vector [1]) (vector [1])
            (table 1 2 [8; 8]) (vector [0]) (new_buffer 4))
     = Raise ValueError
  /\ store_example_batch (table 1 2 [7; 7]) (table 1 2 [1; 1]) (vector [1])
       (table 1 2 [8; 8]) (vector [0]) (new_buffer 4)
     = (new_buffer 4, Raise ReplayBufferError)
  /\ store_example_batch (table 1 2 [7; 7]) (table 1 2 [1; 1]) (vector [1])
       (table 1 2 [8; 8]) (vector [0]) (new_buffer_vector_actions 4)
     = (new_buffer_vector_actions 4, Raise ReplayBufferError)
  /\ snd (store_example_batch (table 1 3 [7; 7; 7]) (vector [1]) (vector [1])
            (table 1 1 [8]) (vector [0]) (new_buffer 4))
     = Ok tt.
Proof.
  assert (H1 : (1 <= 1)%nat) by lia.
  assert (Hs3 : leads 1 3 (table 1 3 [7; 7; 7])) by (split; reflexivity).
  assert (Hs2 : leads 1 2 (table 1 2 [7; 7])) by (split; reflexivity).
  assert (Ha : leads 1 1 (vector [1])) by (split; reflexivity).
  assert (Ha2 : leads 1 2 (table 1 2 [1; 1])) by (split; reflexivity).
  assert (Hsp : leads 1 2 (table 1 2 [8; 8])) by (split; reflexivity).
  assert (Hsp1 : leads 1 1 (table 1 1 [8])) by (split; reflexivity).
  assert (Hd : leads 1 1 (vector [0])) by (split; reflexivity).
  assert (Hw : ncols (_queue (new_buffer 4))
               = Z.to_nat (_sars_size (new_buffer 4))) by reflexivity.
  assert (Hw' : ncols (_queue (new_buffer_vector_actions 4))
                = Z.to_nat (_sars_size (new_buffer_vector_actions 4)))
    by reflexivity.
  destruct (width_mismatch (new_buffer 4) 1 3 1 1 2 1 (table 1 3 [7; 7; 7])
              (vector [1]) (vector [1]) (table 1 2 [8; 8]) (vector [0])
              H1 Hs3 Ha Ha Hsp Hd Hw) as (E & _ & F & _).
  destruct (width_mismatch (new_buffer 4) 1 2 2 1 2 1 (table 1 2 [7; 7])
              (table 1 2 [1; 1]) (vector [1]) (table 1 2 [8; 8]) (vector [0])
              H1 Hs2 Ha2 Ha Hsp Hd Hw) as (_ & G & _).
  destruct (width_mismatch (new_buffer_vector_actions 4) 1 2 2 1 2 1
              (table 1 2 [7; 7]) (table 1 2 [1; 1]) (vector [1])
              (table 1 2 [8; 8]) (vector [0])
              H1 Hs2 Ha2 Ha Hsp Hd Hw') as (_ & G' & _).
  destruct (width_mismatch (new_buffer 4) 1 3 1 1 1 1 (table 1 3 [7; 7; 7])
              (vector [1]) (vector [1]) (table 1 1 [8]) (vector [0])
              H1 Hs3 Ha Ha Hsp1 Hd Hw) as (_ & _ & _ & K).
  split; [exact E|]. split; [|split; [|split]].
  - apply F; try reflexivity. simpl. lia.
  - apply G. left. lia.
  - apply G'. left. lia.
  - apply K; try reflexivity. unfold nrows. simpl. lia.
Defined.

(** C7 as stated fails: the encoder accepts a state of three elements for
    the configured two, and the push of a state of three elements with a
    next state of one element returns and stores the seven elements. *)
Lemma mismatched_batch_accepted :
  is_ok (_encode_sarses (table 1 3 [7; 7; 7]) (vector [1]) (vector [1])
           (table 1 2 [8; 8]) (vector [0])) = true /\
  _s_shape (new_buffer 4) = [2] /\
  snd (store_example (vector [7; 7; 7]) (scalar 1) (scalar 1) (vector [8])
         (scalar 0) (new_buffer 4)) = Ok tt /\
  mrows (_queue (fst (store_example (vector [7; 7; 7]) (scalar 1) (scalar 1)
                        (vector [8]) (scalar 0) (new_buffer 4))))
  = [[0; 0; 0; 0; 0; 0; 0]; [0; 0; 0; 0; 0; 0; 0]; [0; 0; 0; 0; 0; 0; 0];
     [7; 7; 7; 1; 1; 0; 8]].
Proof. repeat split. Qed.

(** C8 on the code: the push of a batch of three transitions into a new
    buffer of capacity 2 does not keep the last two: it raises
    [ValueError] from the slice assignment of [_push], the store still
    holds zeros, and the fill counter is 3, so that the buffer counts as
    ready.  The same three transitions pushed one at a time are stored, and
    the store then holds the last two. *)
Theorem oversized_batch_raises :
  push three_markers (new_buffer 2)
  = (with_contains (new_buffer 2) 3, Raise ValueError) /\
  should_sample (fst (push three_markers (new_buffer 2))) = true /\
  mrows (_queue (fst (push three_markers (new_buffer 2))))
  = [[0; 0; 0; 0; 0; 0; 0]; [0; 0; 0; 0; 0; 0; 0]] /\
  snd (store_all (map marker [1; 2; 3]) (new_buffer 2)) = Ok tt /\
  mrows (_queue (fst (store_all (map marker [1; 2; 3]) (new_buffer 2))))
  = map record_of (map marker [2; 3]).
Proof. repeat split. Qed.

(** The body of [__init__] has no check of the capacity: with [size]
    bound to 0 it returns a buffer with an empty store. *)
Lemma zero_capacity_accepted : __init__ 0 0 [2] [] [] = Ok (new_buffer 0).
Proof. reflexivity. Qed.

(** C10 at a buffer with actions of shape [(2,)] and one transition. *)
Lemma vector_actions_rejected_witness :
  store_example_batch (table 1 2 [1; 1]) (table 1 2 [5; 6]) (vector [10])
    (table 1 2 [2; 2]) (vector [0]) (new_buffer_vector_actions 4)
  = (new_buffer_vector_actions 4, Raise ReplayBufferError).
Proof.
  apply (vector_actions_rejected (new_buffer_vector_actions 4) 1).
  - shape_facts.
  - lia.
  - reflexivity.
  - reflexivity.
  - reflexivity.
  - left. reflexivity.
Defined.

(** * Further properties of the class *)

Section MoreLists.

Context {A : Type}.

Lemma rows_of_concat_map {B} (f : B -> list A) (w : nat) (l : list B) :
  Forall (fun x => length (f x) = w) l ->
  rows_of (length l) w (concat (map f l)) = map f l.
Proof.
  induction 1 as [|x l Hx _ IH]; simpl; [reflexivity|].
  rewrite firstn_app, skipn_app, Hx, Nat.sub_diag.
  rewrite firstn_all2, skipn_all2 by lia.
  simpl. now rewrite app_nil_r, IH.
Qed.

Lemma map_nth_seq (l : list A) (d : A) :
  map (fun i => nth i l d) (seq 0 (length l)) = l.
Proof.
  induction l as [|x l IH]; simpl; [reflexivity|].
  f_equal. rewrite <- seq_shift, map_map. exact IH.
Qed.

Lemma fold_right_mul_app (l1 l2 : list Z) :
  fold_right Z.mul 1 (l1 ++ l2)
  = fold_right Z.mul 1 l1 * fold_right Z.mul 1 l2.
Proof.
  induction l1 as [|x l1 IH]; cbn [fold_right app]; [ring|].
  rewrite IH. ring.
Qed.

Lemma skipn_repeat (x : A) (n k : nat) :
  skipn k (repeat x n) = repeat x (n - k).
Proof.
  revert k; induction n as [|n IH]; intros [|k]; simpl; try reflexivity.
  apply IH.
Qed.

End MoreLists.

(** X1.  [prod] multiplies the dimensions of a tuple: the empty tuple gives
    1, the product of a concatenation is the product of the products, and
    the result is 0 exactly when some dimension is 0. *)
Theorem prod_product :
  prod [] = 1 /\
  (forall l1 l2, prod (l1 ++ l2) = prod l1 * prod l2) /\
  (forall l, prod l = 0 <-> In 0 l).
Proof.
  split; [reflexivity|]. split.
  - intros l1 l2. rewrite !prod_fold_right. apply fold_right_mul_app.
  - intros l. rewrite prod_fold_right.
    induction l as [|x l IH]; simpl.
    + split; [lia | contradiction].
    + rewrite Z.mul_eq_0, IH. split; intros [H|H]; auto.
Qed.

Section MoreEncoding.

Context {V : Type}.

Implicit Types (x s a r sp d : ndarray V) (m : matrix V)
  (b : ReplayBuffer V).

Lemma shape0_leads x (n : nat) :
  shape0 x = Ok n -> leads n (fold_right Nat.mul 1%nat (tl (shape x))) x.
Proof.
  unfold shape0, leads, size. destruct (shape x) as [|d0 rest]; [discriminate|].
  intros [= <-]. split; reflexivity.
Qed.

(** The outcome of [_encode_sarses] on five arrays of at least one
    dimension is decided by their leading dimensions alone: when they are
    not all equal it raises [ReplayBufferError]; when they are all 0 it
    raises [ValueError] (from [np.reshape]); when they are all [n >= 1] it
    returns a matrix of [n] rows that holds every element of the five
    arrays. *)
Lemma encode_cases s a r sp d (ns na nr nsp nd : nat) :
  shape0 s = Ok ns -> shape0 a = Ok na -> shape0 r = Ok nr ->
  shape0 sp = Ok nsp -> shape0 d = Ok nd ->
  (~ (na = ns /\ nr = ns /\ nsp = ns /\ nd = ns) ->
   _encode_sarses s a r sp d = Raise ReplayBufferError)
  /\ (na = ns /\ nr = ns /\ nsp = ns /\ nd = ns -> ns = 0%nat ->
      _encode_sarses s a r sp d = Raise ValueError)
  /\ (na = ns /\ nr = ns /\ nsp = ns /\ nd = ns -> (1 <= ns)%nat ->
      exists m,
        _encode_sarses s a r sp d = Ok m /\ nrows m = ns /\
        (ns * ncols m = size s + size a + size r + size sp + size d)%nat).
Proof.
  intros Hs Ha Hr Hsp Hd. split; [|split].
  - intros Hne. unfold _encode_sarses. rewrite Hs, Ha, Hr, Hsp, Hd.
    cbn [rbind].
    destruct (Nat.eqb_spec ns na); [|reflexivity]. cbn [negb].
    destruct (Nat.eqb_spec ns nr); [|reflexivity]. cbn [negb].
    destruct (Nat.eqb_spec ns nsp); [|reflexivity]. cbn [negb].
    destruct (Nat.eqb_spec ns nd); [|reflexivity].
    exfalso. apply Hne. repeat split; congruence.
  - intros (-> & -> & -> & ->) ->. now apply encode_empty_batch.
  - intros (-> & -> & -> & ->) Hn.
    pose proof (shape0_leads _ _ Hs) as Ls.
    pose proof (shape0_leads _ _ Ha) as La.
    pose proof (shape0_leads _ _ Hr) as Lr.
    pose proof (shape0_leads _ _ Hsp) as Lsp.
    pose proof (shape0_leads _ _ Hd) as Ld.
    rewrite (encode_rows ns _ _ _ _ _ s a r sp d Hn Ls La Lr Lsp Ld).
    eexists. split; [reflexivity|]. split.
    + unfold nrows. cbn [mrows].
      repeat apply hcat_length_eq; apply rows_of_length.
    + cbn [ncols].
      destruct Ls as [_ ->], La as [_ ->], Lr as [_ ->], Lsp as [_ ->],
        Ld as [_ ->]. lia.
Qed.

(** X3.  A push of an empty batch (every leading dimension 0) raises
    [ValueError] and leaves the object as it was. *)
Theorem empty_batch_refused b s a r sp d :
  shape0 s = Ok 0%nat -> size a = 0%nat -> size r = 0%nat ->
  shape0 sp = Ok 0%nat -> size d = 0%nat ->
  store_example_batch s a r sp d b = (b, Raise ValueError).
Proof.
  intros Hs Ha Hr Hsp Hd.
  change (store_example_batch s a r sp d) with (push (s, a, r, sp, d)).
  apply push_rejected. unfold encoded.
  apply encode_empty_batch; try assumption;
    unfold shape0, flatten; cbn [shape]; congruence.
Qed.

Lemma stack_leads (shp : list Z) (rows : list (list V)) :
  positive_shape shp ->
  leads (length rows) (Z.to_nat (prod shp)) (stack shp rows).
Proof.
  intros Hp. unfold leads, stack, size. cbn [shape hd_error fold_right].
  now rewrite size_nat_shape.
Qed.

Lemma fld_length (lo len : nat) (row : list V) :
  (lo + len <= length row)%nat -> length (fld lo len row) = len.
Proof.
  intros H. unfold fld. rewrite length_firstn, length_skipn. lia.
Qed.

Lemma fld_skipn (lo len : nat) (row : list V) :
  fld lo len row ++ skipn (lo + len) row = skipn lo row.
Proof.
  unfold fld. replace (lo + len)%nat with (len + lo)%nat by lia.
  rewrite <- skipn_skipn. apply firstn_skipn.
Qed.

(** The fields of a record, concatenated in the order of the layout, are
    the record. *)
Lemma fields_rebuild (S A R : nat) (row : list V) :
  (((fld 0 S row ++ fld S A row) ++ fld (S + A) R row)
     ++ fld (S + A + R) 1 row) ++ skipn (S + A + R + 1) row = row.
Proof.
  rewrite <- !app_assoc.
  rewrite (fld_skipn (S + A + R) 1), (fld_skipn (S + A) R).
  rewrite (fld_skipn S A). apply (fld_skipn 0 S).
Qed.

(** X4.  [_encode_sarses] is a right inverse of [_decode_sarses]: a matrix
    of [n >= 1] records of [_sars_size] elements is decoded into five
    arrays whose encoding is that matrix. *)
Theorem encode_decode_roundtrip b m :
  configured b ->
  ncols m = Z.to_nat (_sars_size b) ->
  Forall (fun row => length row = ncols m) (mrows m) ->
  (1 <= nrows m)%nat ->
  exists s a r sp d,
    _decode_sarses b m = Ok (s, a, r, sp, d) /\
    _encode_sarses s a r sp d = Ok m.
Proof.
  intros Hcfg Hc Hwf Hn.
  pose proof Hcfg as (Hps & Hpa & Hpr & Es & Ea & Er & Ed & Ed1 & Ew).
  pose proof (prod_positive _ Hps) as Ps.
  pose proof (prod_positive _ Hpa) as Pa.
  pose proof (prod_positive _ Hpr) as Pr.
  rewrite (decode_rows b m Hcfg Hc). unfold unpack.
  set (S := Z.to_nat (_s_size b)). set (A := Z.to_nat (_a_size b)).
  set (R := Z.to_nat (_r_size b)).
  do 5 eexists. split; [reflexivity|].
  assert (Hw : ncols m = (S + A + R + 1 + S)%nat)
    by (rewrite Hc, Ew, Ed1; unfold S, A, R; lia).
  assert (L : forall (shp : list Z) (f : list V -> list V),
             positive_shape shp ->
             leads (nrows m) (Z.to_nat (prod shp))
               (stack shp (map f (mrows m)))).
  { intros shp f Hp. unfold nrows. rewrite <- (length_map f).
    now apply stack_leads. }
  rewrite (encode_rows (nrows m) S A R S 1); try assumption.
  - unfold stack. cbn [data]. unfold nrows.
    rewrite !rows_of_concat_map;
      try (revert Hwf; apply Forall_impl; intros row Hrow;
           (apply fld_length || rewrite length_skipn); lia).
    rewrite !hcat_map.
    rewrite (map_ext _ (fun row => row)) by (intros row; apply fields_rebuild).
    rewrite map_id. destruct m as [w rows]. cbn in *. now rewrite Hw.
  - pose proof (L (_s_shape b) (fld 0 S) Hps) as H.
    rewrite <- Es in H. exact H.
  - pose proof (L (_a_shape b) (fld S A) Hpa) as H.
    rewrite <- Ea in H. exact H.
  - pose proof (L (_r_shape b) (fld (S + A) R) Hpr) as H.
    rewrite <- Er in H. exact H.
  - pose proof (L (_s_shape b) (skipn (S + A + R + 1)) Hps) as H.
    rewrite <- Es in H. exact H.
  - exact (L [] (fld (S + A + R) 1) (Forall_nil _)).
Qed.

End MoreEncoding.

Section MoreSampling.

Context {V : Type}.

Implicit Types (b : ReplayBuffer V).

(** X5.  On a ready buffer and for [0 <= n <= capacity], each of the five
    arrays that [sample n] returns has the leading dimension [n] followed
    by the configured shape: [(n,) + s_shape] for states and next states,
    [(n,) + a_shape], [(n,) + r_shape], and [(n,)] for the flags. *)
Theorem sample_shapes b (n : Z) (perm : list nat) :
  buffer_inv b -> should_sample b = true -> 0 <= n <= _size b ->
  Permutation perm (seq 0 (Z.to_nat (_size b))) ->
  exists s a r sp d,
    sample n perm b = (b, Ok (s, a, r, sp, d)) /\
    shape s = Z.to_nat n :: map Z.to_nat (_s_shape b) /\
    shape a = Z.to_nat n :: map Z.to_nat (_a_shape b) /\
    shape r = Z.to_nat n :: map Z.to_nat (_r_shape b) /\
    shape sp = Z.to_nat n :: map Z.to_nat (_s_shape b) /\
    shape d = [Z.to_nat n].
Proof.
  intros Hinv Hready Hn Hp.
  destruct (drawn_indices (Z.to_nat (_size b)) (Z.to_nat n) perm Hp)
    as (Hlen & _ & _); [lia|].
  rewrite (sample_rows b n perm Hinv Hready Hn Hp). unfold unpack, stack.
  do 5 eexists. split; [reflexivity|].
  cbn [shape]. rewrite !length_map, Hlen. repeat split.
Qed.

(** X6.  A sample of the whole capacity returns every row of the store
    exactly once: the rows decoded are a permutation of the rows of the
    queue. *)
Theorem sample_whole_store b (perm : list nat) :
  buffer_inv b -> should_sample b = true ->
  Permutation perm (seq 0 (Z.to_nat (_size b))) ->
  exists rows,
    Permutation rows (mrows (_queue b)) /\
    sample (_size b) perm b = (b, Ok (unpack b rows)).
Proof.
  intros Hinv Hready Hp.
  pose proof Hinv as (_ & Hsz & _ & Hr).
  assert (Hlen : length perm = Z.to_nat (_size b))
    by (rewrite (Permutation_length Hp); apply length_seq).
  exists (map (fun i => nth i (mrows (_queue b)) []) perm). split.
  - pose proof (map_nth_seq (mrows (_queue b)) []) as E.
    unfold nrows in Hr. rewrite Hr in E.
    eapply Permutation_trans; [apply Permutation_map, Hp|].
    rewrite E. apply Permutation_refl.
  - rewrite (sample_rows b (_size b) perm Hinv Hready) by (assumption || lia).
    now rewrite firstn_all2 by lia.
Qed.

End MoreSampling.

Section MorePushes.

Context {V : Type}.
Variable zero : V.

Implicit Types (b : ReplayBuffer V) (m q : matrix V) (t : transition V)
  (x : sars V).

(** X7.  [_pop(k)], [k >= 1], never raises and keeps the shape of the
    queue: row [i] receives row [i + k], and the last [k] rows keep what
    they held (for [k] at least the number of rows nothing changes). *)
Theorem pop_keeps_tail b (k : nat) :
  (1 <= k)%nat ->
  exists q',
    _pop (Z.of_nat k) b = (with_queue b q', Ok tt) /\
    ncols q' = ncols (_queue b) /\ nrows q' = nrows (_queue b) /\
    (forall i, (i + k < nrows (_queue b))%nat ->
               nth i (mrows q') [] = nth (i + k) (mrows (_queue b)) []) /\
    (forall i, (nrows (_queue b) - k <= i)%nat ->
               nth i (mrows q') [] = nth i (mrows (_queue b)) []).
Proof.
  intros Hk. rewrite pop_rows by assumption.
  eexists. split; [reflexivity|]. unfold nrows. cbn [ncols mrows].
  split; [reflexivity|]. split; [|split].
  - rewrite length_app, !length_skipn. lia.
  - intros i Hi. rewrite app_nth1 by (rewrite length_skipn; lia).
    rewrite nth_skipn. f_equal. lia.
  - intros i Hi. rewrite app_nth2 by (rewrite length_skipn; lia).
    rewrite nth_skipn, length_skipn. f_equal. lia.
Qed.

Lemma push_config x b :
  let b' := fst (push x b) in
  _size b' = _size b /\ _s_shape b' = _s_shape b /\
  _a_shape b' = _a_shape b /\ _r_shape b' = _r_shape b /\
  _s_size b' = _s_size b /\ _a_size b' = _a_size b /\
  _r_size b' = _r_size b /\ _sars_size b' = _sars_size b.
Proof.
  destruct (encoded x) as [m|e] eqn:E.
  - destruct (push_accepted x b m E) as (q & _ & H & _).
    cbv zeta. rewrite H. unfold counted.
    destruct (should_sample b); repeat split.
  - cbv zeta. rewrite (push_rejected x b e E). repeat split.
Qed.

(** X8.  Capacity, shapes and record length are fixed at construction: in
    every state reached from a new buffer by calls of
    [store_example_batch], returning or raising, they are what
    [__init__] was given, and the queue is an array of shape
    [(capacity, record_length)]. *)
Theorem configuration_fixed (c : Z) (ss sa sr : list Z) b0
    (xs : list (sars V)) :
  __init__ zero c ss sa sr = Ok b0 ->
  positive_shape ss -> positive_shape sa -> positive_shape sr ->
  let b := run_pushes xs b0 in
  _size b = c /\ _s_shape b = ss /\ _a_shape b = sa /\ _r_shape b = sr /\
  _sars_size b = prod ss * 2 + prod sa + prod sr + 1 /\
  nrows (_queue b) = Z.to_nat c /\
  ncols (_queue b) = Z.to_nat (prod ss * 2 + prod sa + prod sr + 1).
Proof.
  intros Hinit Hs Ha Hr b.
  pose proof (reachable_inv zero c ss sa sr b0 xs Hinit Hs Ha Hr)
    as (_ & _ & Hc & Hn).
  fold b in Hc, Hn.
  destruct (init_fields _ _ _ _ _ _ Hinit)
    as (Esz & _ & Ess & Esa & Esr & _ & _ & _ & _ & _ & Ew & _).
  assert (H : _size b = _size b0 /\ _s_shape b = _s_shape b0 /\
              _a_shape b = _a_shape b0 /\ _r_shape b = _r_shape b0 /\
              _sars_size b = _sars_size b0).
  { unfold b. clear. revert b0.
    induction xs as [|x xs IH]; intros b0; [repeat split|].
    change (run_pushes (x :: xs) b0) with (run_pushes xs (fst (push x b0))).
    destruct (IH (fst (push x b0))) as (H1 & H2 & H3 & H4 & H5).
    destruct (push_config x b0) as (P1 & P2 & P3 & P4 & _ & _ & _ & P8).
    repeat split; congruence. }
  destruct H as (H1 & H2 & H3 & H4 & H5).
  rewrite Hn, Hc, H1, H2, H3, H4, H5, Esz, Ess, Esa, Esr, Ew.
  repeat split.
Qed.

(** X9.  A push of a batch of more transitions than a non-empty store has
    rows, with actions, rewards and flags of one element each and whatever
    element counts of states and next states, raises [ValueError]: the
    rows of the store are as before, and the fill counter has been
    increased by the size of the batch if the gate was closed. *)
Theorem batch_over_capacity b (n ks ksp : nat) (s a r sp d : ndarray V) :
  (1 <= nrows (_queue b) < n)%nat ->
  leads n ks s -> leads n 1 a -> leads n 1 r -> leads n ksp sp ->
  leads n 1 d ->
  snd (store_example_batch s a r sp d b) = Raise ValueError /\
  _queue (fst (store_example_batch s a r sp d b)) = _queue b /\
  _contains (fst (store_example_batch s a r sp d b))
  = (if should_sample b then _contains b else _contains b + Z.of_nat n).
Proof.
  intros Hn Hs Ha Hr Hsp Hd.
  change (store_example_batch s a r sp d) with (push (s, a, r, sp, d)).
  assert (E : exists m, encoded (s, a, r, sp, d) = Ok m /\ nrows m = n).
  { unfold encoded.
    rewrite (encode_rows n ks 1 1 ksp 1)
      by (lia || assumption || now apply leads_flatten).
    eexists. split; [reflexivity|]. unfold nrows. cbn [mrows].
    repeat apply hcat_length_eq; apply rows_of_length. }
  destruct E as (m & E & Hm).
  rewrite (push_over_capacity (s, a, r, sp, d) b m E) by lia.
  rewrite Hm. cbn [fst snd]. split; [reflexivity|].
  split; [apply counted_queue|].
  unfold counted. destruct (should_sample b); reflexivity.
Qed.

End MorePushes.

Section SinglePushes.

Context {V : Type}.
Variable zero : V.

Implicit Types (b : ReplayBuffer V) (m q : matrix V) (t : transition V).

(** The fill counter after pushing [ts] one at a time: it grows by one per
    push until it is the capacity. *)
Lemma store_all_counter (ts : list (transition V)) b :
  pushable b -> Forall (fits b) ts ->
  _contains (fst (store_all ts b))
  = (if _size b <=? _contains b then _contains b
     else Z.min (_contains b + Z.of_nat (length ts)) (_size b)).
Proof.
  revert b; induction ts as [|t ts IH]; intros b Hp Hfits.
  - simpl. destruct (Z.leb_spec (_size b) (_contains b)); lia.
  - inversion Hfits as [|? ? Hfit Hfits']; subst.
    simpl store_all. unfold bind at 1.
    rewrite (store_transition_rows b t Hp Hfit).
    set (q1 := mk_matrix _ _).
    pose proof Hp as (Ha & Hr & Hc & Hn).
    assert (Hq1 : (1 <= nrows q1)%nat).
    { unfold nrows, q1. cbn [mrows]. rewrite length_app. simpl. lia. }
    unfold counted, should_sample.
    destruct (Z.leb_spec (_size b) (_contains b)) as [Hge|Hlt].
    + rewrite (IH (with_queue b q1)); [| repeat split; assumption | exact Hfits'].
      cbn [_size _contains with_queue].
      destruct (Z.leb_spec (_size b) (_contains b)); [reflexivity | lia].
    + rewrite (IH (with_queue (with_contains b (_contains b + Z.of_nat 1)) q1));
        [| repeat split; assumption | exact Hfits'].
      cbn [_size _contains with_queue with_contains length].
      destruct (Z.leb_spec (_size b) (_contains b + Z.of_nat 1)); lia.
Qed.

(** The state after pushing [ts] one at a time. *)
Lemma store_all_state (ts : list (transition V)) b :
  pushable b -> Forall (fits b) ts ->
  exists b',
    store_all ts b = (b', Ok tt) /\
    _size b' = _size b /\
    ncols (_queue b') = ncols (_queue b) /\
    mrows (_queue b')
    = skipn (length ts) (mrows (_queue b) ++ map record_of ts) /\
    _contains b'
    = (if _size b <=? _contains b then _contains b
       else Z.min (_contains b + Z.of_nat (length ts)) (_size b)) /\
    (forall t, fits b t -> fits b' t) /\ (configured b -> configured b').
Proof.
  intros Hp Hfits.
  pose proof (store_all_counter ts b Hp Hfits) as Hcount.
  destruct (store_all_rows ts b Hp Hfits) as (c' & q' & E & Hq & Hrows & _).
  rewrite E in Hcount. exists (with_queue (with_contains b c') q').
  split; [exact E|]. split; [reflexivity|]. split; [exact Hq|].
  split; [exact Hrows|]. split; [exact Hcount|].
  split; [intros t Ht; exact Ht | intros H; exact H].
Qed.

Lemma new_buffer_pushable (c : Z) (ss sa sr : list Z) b0 :
  __init__ zero c ss sa sr = Ok b0 ->
  1 <= c -> positive_shape ss -> prod sa = 1 -> prod sr = 1 ->
  pushable b0.
Proof.
  intros Hinit Hc Hps Ha1 Hr1.
  destruct (init_fields _ _ _ _ _ _ Hinit)
    as (Esz & Ect & Ess & Esa & Esr & Es & Ea & Er & Ed & Ed1 & Ew & _ & Hw & Eq).
  pose proof (prod_positive _ Hps) as Ps.
  unfold pushable, record_width. rewrite Ea, Er, Eq, Es, Ew, Ha1, Hr1.
  unfold nrows. cbn [ncols mrows]. rewrite repeat_length.
  repeat split; lia.
Qed.

(** X10.  Pushed one at a time into a new buffer, transitions are counted
    one by one up to the capacity and no further: after [k] pushes the fill
    counter is [min k capacity]. *)
Theorem single_push_counter (c : Z) (ss sa sr : list Z) b0
    (ts : list (transition V)) :
  __init__ zero c ss sa sr = Ok b0 ->
  1 <= c -> positive_shape ss -> prod sa = 1 -> prod sr = 1 ->
  Forall (fits b0) ts ->
  exists b',
    store_all ts b0 = (b', Ok tt) /\
    _contains b' = Z.min (Z.of_nat (length ts)) c.
Proof.
  intros Hinit Hc Hps Ha1 Hr1 Hfits.
  pose proof (new_buffer_pushable c ss sa sr b0 Hinit Hc Hps Ha1 Hr1) as Hp.
  destruct (init_fields _ _ _ _ _ _ Hinit) as (Esz & Ect & _).
  destruct (store_all_state ts b0 Hp Hfits)
    as (b' & E & _ & _ & _ & Hcount & _).
  exists b'. split; [exact E|]. rewrite Hcount, Esz, Ect.
  destruct (Z.leb_spec c 0); lia.
Qed.

(** While fewer transitions than the capacity have been pushed into a
    new buffer, the store still holds rows of zeros in front of the records
    pushed, the gate is closed, and every call of [sample] raises
    [ReplayBufferError]. *)
Lemma partial_fill_rows (c : Z) (ss sa sr : list Z) b0
    (ts : list (transition V)) :
  __init__ zero c ss sa sr = Ok b0 ->
  positive_shape ss -> prod sa = 1 -> prod sr = 1 ->
  Forall (fits b0) ts ->
  Z.of_nat (length ts) < c ->
  exists b',
    store_all ts b0 = (b', Ok tt) /\
    should_sample b' = false /\
    mrows (_queue b')
    = repeat (repeat zero (Z.to_nat (_sars_size b0)))
        (Z.to_nat c - length ts)
      ++ map record_of ts /\
    forall (n : Z) (perm : list nat),
      sample n perm b' = (b', Raise ReplayBufferError).
Proof.
  intros Hinit Hps Ha1 Hr1 Hfits Hlen.
  assert (Hc : 1 <= c) by lia.
  pose proof (new_buffer_pushable c ss sa sr b0 Hinit Hc Hps Ha1 Hr1) as Hp.
  destruct (init_fields _ _ _ _ _ _ Hinit)
    as (Esz & Ect & _ & _ & _ & _ & _ & _ & _ & _ & _ & _ & _ & Eq).
  destruct (store_all_state ts b0 Hp Hfits)
    as (b' & E & Hsz & _ & Hrows & Hcount & _).
  assert (Hgate : should_sample b' = false).
  { unfold should_sample. rewrite Hsz, Hcount, Esz, Ect.
    destruct (Z.leb_spec c 0); [lia|]. apply Z.leb_gt. lia. }
  exists b'. split; [exact E|]. split; [exact Hgate|]. split.
  - rewrite Hrows, Eq. cbn [mrows].
    rewrite skipn_app, repeat_length, skipn_repeat.
    replace (length ts - Z.to_nat c)%nat with 0%nat by lia.
    reflexivity.
  - intros n perm. unfold sample, bind, get_self, lift.
    now rewrite Hgate.
Qed.

End SinglePushes.

Section BatchPushes.

Context {V : Type}.
Variable zero : V.

Implicit Types (b : ReplayBuffer V) (m q : matrix V) (t : transition V).

(** What [store_example_batch] encodes for the arrays that hold the
    transitions [ts]. *)
Lemma encoded_batch b (ts : list (transition V)) :
  configured b -> _a_size b = 1 -> _r_size b = 1 ->
  Forall (fits b) ts -> (1 <= length ts)%nat ->
  encoded (batch b ts) = Ok (mk_matrix (record_width b) (map record_of ts)).
Proof.
  intros (Hps & Hpa & Hpr & Es & Ea & Er & _) Ha1 Hr1 Hfits Hn.
  assert (L : forall (shp : list Z) (f : transition V -> list V),
             positive_shape shp ->
             leads (length ts) (Z.to_nat (prod shp)) (stack shp (map f ts))).
  { intros shp f Hp. rewrite <- (length_map f). now apply stack_leads. }
  unfold encoded, batch.
  rewrite (encode_rows (length ts) (Z.to_nat (_s_size b)) 1 1
             (Z.to_nat (_s_size b)) 1); try assumption.
  - unfold flatten, stack. cbn [data].
    rewrite !rows_of_concat_map;
      try (revert Hfits; apply Forall_impl;
           intros t (Ws & Wa & Wr & Wsp & Wd & Zs & Za & Zr & Zsp & Zd);
           unfold wf_ndarray in *; rewrite ?Ha1, ?Hr1 in *;
           change (Z.to_nat 1) with 1%nat in *; congruence).
    rewrite !hcat_map. unfold record_width. rewrite Ha1, Hr1.
    reflexivity.
  - rewrite Es. now apply L.
  - apply leads_flatten. pose proof (L (_a_shape b) (fun t => data (t_a t)) Hpa) as H.
    rewrite <- Ea, Ha1 in H. exact H.
  - apply leads_flatten. pose proof (L (_r_shape b) (fun t => data (t_r t)) Hpr) as H.
    rewrite <- Er, Hr1 in H. exact H.
  - rewrite Es. now apply L.
  - apply leads_flatten. exact (L [] (fun t => data (t_d t)) (Forall_nil _)).
Qed.

(** One call of [store_example_batch] on the arrays that hold
    [1 <= n <= capacity] transitions leaves the queue that [n] calls of
    [store_example] leave: the rows from [n] on followed by the records of
    the batch, in order.  The gate is open after the one iff it is open
    after the others; the fill counter of the batch call is at least that
    of the single calls (it grows by [n] at once and may exceed the
    capacity). *)
Lemma batch_push_rows b (ts : list (transition V)) :
  configured b -> pushable b -> Forall (fits b) ts ->
  (1 <= length ts <= nrows (_queue b))%nat ->
  exists b1 b2,
    push (batch b ts) b = (b1, Ok tt) /\
    store_all ts b = (b2, Ok tt) /\
    _queue b1 = _queue b2 /\
    mrows (_queue b1)
    = skipn (length ts) (mrows (_queue b)) ++ map record_of ts /\
    should_sample b1 = should_sample b2 /\
    _contains b2 <= _contains b1.
Proof.
  intros Hcfg Hp Hfits Hn.
  pose proof Hp as (Ha1 & Hr1 & Hc & _).
  destruct (store_all_state ts b Hp Hfits)
    as (b2 & E2 & Hsz2 & Hq2 & Hrows2 & Hcount2 & _).
  rewrite push_unfold, (encoded_batch b ts Hcfg Ha1 Hr1 Hfits) by lia.
  set (m := mk_matrix _ _).
  assert (Hm : nrows m = length ts) by (unfold nrows, m; apply length_map).
  rewrite insert_rows; rewrite ?counted_queue, ?Hm; try lia;
    [| now rewrite Hc].
  rewrite skipn_app in Hrows2.
  replace (length ts - length (mrows (_queue b)))%nat with 0%nat in Hrows2
    by (unfold nrows in Hn; lia).
  simpl skipn in Hrows2.
  eexists. exists b2. split; [reflexivity|]. split; [exact E2|].
  cbn [_queue with_queue mrows m].
  split; [| split; [reflexivity|]].
  - destruct (_queue b2) as [w2 rows2]. cbn in Hq2, Hrows2. now subst.
  - unfold should_sample, counted, should_sample.
    cbn [_size _contains with_queue].
    rewrite Hsz2, Hcount2.
    destruct (Z.leb_spec (_size b) (_contains b)) as [Hge|Hlt];
      cbn [_size _contains with_contains].
    + split; [reflexivity | lia].
    + split; [|lia].
      destruct (Z.leb_spec (_size b) (_contains b + Z.of_nat (length ts)));
        symmetry; [apply Z.leb_le | apply Z.leb_gt]; lia.
Qed.

(** X13.  A buffer constructed with the capacity 0, a state shape of
    positive dimensions and action and reward shapes of one element is
    ready at once, and [store_example] of a fitting transition returns
    without storing anything: the object is as before. *)
Theorem zero_capacity_buffer (ss sa sr : list Z) b0 :
  __init__ zero 0 ss sa sr = Ok b0 ->
  positive_shape ss -> prod sa = 1 -> prod sr = 1 ->
  should_sample b0 = true /\
  forall t, fits b0 t -> store_transition t b0 = (b0, Ok tt).
Proof.
  intros Hinit Hps Ha1 Hr1.
  destruct (init_fields _ _ _ _ _ _ Hinit) as (Esz & Ect & _).
  split; [unfold should_sample; rewrite Esz, Ect; reflexivity|].
  intros t Hfit.
  exact (zero_capacity_push zero ss sa sr b0 t Hinit Hps Ha1 Hr1 Hfit).
Qed.

End BatchPushes.

(** * Arrays with a dtype *)

Section Conversions.

Context {V W : Type}.
Variable f : V -> W.

Lemma rows_of_map (n w : nat) (l : list V) :
  rows_of n w (map f l) = map (map f) (rows_of n w l).
Proof.
  revert l; induction n as [|n IH]; intros l; simpl; [reflexivity|].
  now rewrite firstn_map, skipn_map, IH.
Qed.

Lemma hcat_map_rows (xs ys : list (list V)) :
  hcat (map (map f) xs) (map (map f) ys) = map (map f) (hcat xs ys).
Proof.
  revert ys; induction xs as [|x xs IH]; intros [|y ys]; simpl;
    try reflexivity.
  now rewrite map_app, IH.
Qed.

Lemma size_amap (x : ndarray V) : size (amap f x) = size x.
Proof. reflexivity. Qed.

Lemma nrows_mmap (m : matrix V) : nrows (mmap f m) = nrows m.
Proof. unfold nrows, mmap. simpl. apply length_map. Qed.

Lemma shape0_amap (x : ndarray V) : shape0 (amap f x) = shape0 x.
Proof. reflexivity. Qed.

Lemma flatten_amap (x : ndarray V) : flatten (amap f x) = amap f (flatten x).
Proof. reflexivity. Qed.

Lemma expand_dims0_amap (x : ndarray V) :
  expand_dims0 (amap f x) = amap f (expand_dims0 x).
Proof. reflexivity. Qed.

Lemma reshape_rows_amap (x : ndarray V) (n : nat) :
  reshape_rows (amap f x) n = (m <- reshape_rows x n ;; Ok (mmap f m)).
Proof.
  unfold reshape_rows. rewrite size_amap.
  destruct (resolve_shape (size x) [Z.of_nat n; -1]) as [shp|e];
    [|reflexivity].
  cbn [rbind]. destruct shp as [|r [|c [|? ?]]]; try reflexivity.
  unfold mmap, amap. cbn [data ncols mrows rbind].
  now rewrite rows_of_map.
Qed.

Lemma concatenate2_mmap (x y : matrix V) :
  concatenate2 (mmap f x) (mmap f y)
  = (m <- concatenate2 x y ;; Ok (mmap f m)).
Proof.
  unfold concatenate2. rewrite !nrows_mmap.
  destruct (Nat.eqb (nrows x) (nrows y)); [|reflexivity].
  unfold mmap. cbn [rbind ncols mrows]. now rewrite hcat_map_rows.
Qed.

Lemma concatenate_mmap (xs : list (matrix V)) (x : matrix V) :
  concatenate (mmap f x) (map (mmap f) xs)
  = (m <- concatenate x xs ;; Ok (mmap f m)).
Proof.
  revert x; induction xs as [|y ys IH]; intros x; [reflexivity|].
  cbn [concatenate map]. rewrite concatenate2_mmap.
  destruct (concatenate2 x y) as [xy|e]; [|reflexivity].
  cbn [rbind]. apply IH.
Qed.

(** The encoder commutes with a conversion of the elements. *)
Lemma encode_amap (s a r sp d : ndarray V) :
  _encode_sarses (amap f s) (amap f a) (amap f r) (amap f sp) (amap f d)
  = (m <- _encode_sarses s a r sp d ;; Ok (mmap f m)).
Proof.
  unfold _encode_sarses. rewrite !shape0_amap.
  destruct (shape0 s) as [n|e]; [|reflexivity]. cbn [rbind].
  destruct (shape0 a) as [a0|e]; [|reflexivity]. cbn [rbind].
  destruct (negb _); [reflexivity|].
  destruct (shape0 r) as [r0|e]; [|reflexivity]. cbn [rbind].
  destruct (negb _); [reflexivity|].
  destruct (shape0 sp) as [sp0|e]; [|reflexivity]. cbn [rbind].
  destruct (negb _); [reflexivity|].
  destruct (shape0 d) as [d0|e]; [|reflexivity]. cbn [rbind].
  destruct (negb _); [reflexivity|].
  rewrite !reshape_rows_amap.
  destruct (reshape_rows s n) as [s'|e]; [|reflexivity]. cbn [rbind].
  destruct (reshape_rows a n) as [a'|e]; [|reflexivity]. cbn [rbind].
  destruct (reshape_rows r n) as [r'|e]; [|reflexivity]. cbn [rbind].
  destruct (reshape_rows sp n) as [sp'|e]; [|reflexivity]. cbn [rbind].
  destruct (reshape_rows d n) as [d'|e]; [|reflexivity]. cbn [rbind].
  apply (concatenate_mmap [a'; r'; d'; sp']).
Qed.

End Conversions.

Section Compositions.

Context {U V W : Type}.

Lemma mmap_mmap (g : V -> W) (f : U -> V) (m : matrix U) :
  mmap g (mmap f m) = mmap (fun x => g (f x)) m.
Proof.
  unfold mmap. cbn [ncols mrows]. f_equal.
  rewrite map_map. apply map_ext. intros l. apply map_map.
Qed.

Lemma mmap_ext (f g : U -> V) (m : matrix U) :
  (forall x, f x = g x) -> mmap f m = mmap g m.
Proof.
  intros H. unfold mmap. f_equal. apply map_ext. intros l.
  now apply map_ext.
Qed.

End Compositions.

Section Dtypes.

Implicit Types (s a r sp d x : Typed.tarray) (b : ReplayBuffer value)
  (t : dtype) (v : value).

Lemma astype_float64_twice t v :
  astype float64 (astype t v) = astype float64 v.
Proof. destruct t, v; reflexivity. Qed.

Lemma astype_same t v : has_dtype t v -> astype t v = v.
Proof. destruct t, v; simpl; intros H; (reflexivity || contradiction). Qed.

Lemma astype_float64 v : exists f, astype float64 v = VFloat f.
Proof. destruct v; eexists; reflexivity. Qed.

(** The typed encoder is the encoder on the elements, followed by the
    conversion to the common dtype. *)
Lemma typed_encode s a r sp d :
  Typed._encode_sarses s a r sp d
  = (m <- _encode_sarses (Typed.arr s) (Typed.arr a) (Typed.arr r)
            (Typed.arr sp) (Typed.arr d) ;;
     Ok (Typed.mk_tmatrix (Typed.common_dtype s a r sp d)
           (mmap (astype (Typed.common_dtype s a r sp d)) m))).
Proof.
  unfold Typed._encode_sarses, _encode_sarses, Typed.tshape0.
  destruct (shape0 (Typed.arr s)) as [n|e]; [|reflexivity]. cbn [rbind].
  destruct (shape0 (Typed.arr a)) as [a0|e]; [|reflexivity]. cbn [rbind].
  destruct (negb _); [reflexivity|].
  destruct (shape0 (Typed.arr r)) as [r0|e]; [|reflexivity]. cbn [rbind].
  destruct (negb _); [reflexivity|].
  destruct (shape0 (Typed.arr sp)) as [sp0|e]; [|reflexivity]. cbn [rbind].
  destruct (negb _); [reflexivity|].
  destruct (shape0 (Typed.arr d)) as [d0|e]; [|reflexivity]. cbn [rbind].
  destruct (negb _); [reflexivity|].
  unfold Typed.treshape_rows.
  destruct (reshape_rows (Typed.arr s) n) as [s'|e]; [|reflexivity].
  cbn [rbind].
  destruct (reshape_rows (Typed.arr a) n) as [a'|e]; [|reflexivity].
  cbn [rbind].
  destruct (reshape_rows (Typed.arr r) n) as [r'|e]; [|reflexivity].
  cbn [rbind].
  destruct (reshape_rows (Typed.arr sp) n) as [sp'|e]; [|reflexivity].
  cbn [rbind].
  destruct (reshape_rows (Typed.arr d) n) as [d'|e]; [|reflexivity].
  cbn [rbind].
  unfold Typed.tconcatenate. cbn [map Typed.mdt Typed.mat].
  change (fold_left result_type
            [Typed.dt a; Typed.dt r; Typed.dt d; Typed.dt sp] (Typed.dt s))
    with (Typed.common_dtype s a r sp d).
  set (T := Typed.common_dtype s a r sp d).
  pose proof (concatenate_mmap (astype T) [a'; r'; d'; sp'] s') as H.
  cbn [map] in H. rewrite H.
  destruct (concatenate s' [a'; r'; d'; sp']); reflexivity.
Qed.

Lemma typed_push (m : Typed.tmatrix) :
  Typed._push m = _push (mmap (astype float64) (Typed.mat m)).
Proof. unfold Typed._push, _push. now rewrite nrows_mmap. Qed.

Lemma bind_lift {A B : Type} (r : result A) (k : A -> M value B) b :
  bind (lift r) k b
  = match r with
    | Ok a => k a b
    | Raise e => (b, Raise e)
    end.
Proof. destruct r; reflexivity. Qed.

(** A push of arrays with dtypes is the push of their conversions to
    [float64]. *)
Lemma typed_store_example_batch s a r sp d b :
  Typed.store_example_batch s a r sp d b
  = store_example_batch (amap (astype float64) (Typed.arr s))
      (amap (astype float64) (Typed.arr a))
      (amap (astype float64) (Typed.arr r))
      (amap (astype float64) (Typed.arr sp))
      (amap (astype float64) (Typed.arr d)) b.
Proof.
  unfold Typed.store_example_batch, store_example_batch.
  rewrite !bind_lift.
  rewrite typed_encode. rewrite !flatten_amap, encode_amap.
  unfold Typed.tflatten. cbn [Typed.arr].
  destruct (_encode_sarses _ _ _ _ _) as [m|e]; [|reflexivity].
  cbn [rbind Typed.mat]. rewrite !nrows_mmap, typed_push.
  cbn [Typed.mat]. rewrite mmap_mmap.
  rewrite (mmap_ext _ (astype float64)) by (intros; apply astype_float64_twice).
  reflexivity.
Qed.

Lemma typed_store_example s a r sp d b :
  Typed.store_example s a r sp d b
  = store_example (amap (astype float64) (Typed.arr s))
      (amap (astype float64) (Typed.arr a))
      (amap (astype float64) (Typed.arr r))
      (amap (astype float64) (Typed.arr sp))
      (amap (astype float64) (Typed.arr d)) b.
Proof.
  unfold Typed.store_example, store_example.
  rewrite typed_store_example_batch. reflexivity.
Qed.

Lemma typed_store_all (es : list Typed.example) b :
  Typed.store_all es b = store_all (map Typed.as_float64 es) b.
Proof.
  revert b; induction es as [|e es IH]; intros b; [reflexivity|].
  cbn [Typed.store_all store_all map]. unfold bind.
  unfold Typed.store_transition, store_transition.
  rewrite typed_store_example.
  cbn [Typed.as_float64 tmap Typed.untyped t_s t_a t_r t_sp t_d].
  destruct (store_example _ _ _ _ _ b) as [b1 [[]|e1]]; [apply IH|reflexivity].
Qed.

Lemma typed_decode b (m : Typed.tmatrix) :
  Typed._decode_sarses b m
  = (x <- _decode_sarses b (Typed.mat m) ;;
     Ok (Typed.tagged (Typed.mdt m) x)).
Proof.
  unfold Typed._decode_sarses, _decode_sarses, Typed.treshape_matrix,
    Typed.tget_cols.
  cbn [Typed.mat Typed.mdt].
  repeat (match goal with
          | |- context [reshape_matrix ?m ?shp] =>
              destruct (reshape_matrix m shp); [|reflexivity]
          end; cbn [rbind]).
  reflexivity.
Qed.

Lemma typed_sample (n : Z) (perm : list nat) b :
  Typed.sample n perm b
  = (fst (sample n perm b),
     x <- snd (sample n perm b) ;; Ok (Typed.tagged float64 x)).
Proof.
  unfold Typed.sample, sample, bind, get_self, lift.
  destruct (negb (should_sample b) || (_size b <? n)); [reflexivity|].
  destruct (choice _ _ _); [|reflexivity].
  destruct (take_rows _ _); [|reflexivity].
  rewrite typed_decode. cbn [Typed.mat Typed.mdt fst snd].
  destruct (_decode_sarses _ _); reflexivity.
Qed.

Lemma typed_encode_converted s a r sp d :
  Typed._encode_sarses s a r sp d
  = (m <- _encode_sarses
            (amap (astype (Typed.common_dtype s a r sp d)) (Typed.arr s))
            (amap (astype (Typed.common_dtype s a r sp d)) (Typed.arr a))
            (amap (astype (Typed.common_dtype s a r sp d)) (Typed.arr r))
            (amap (astype (Typed.common_dtype s a r sp d)) (Typed.arr sp))
            (amap (astype (Typed.common_dtype s a r sp d)) (Typed.arr d)) ;;
     Ok (Typed.mk_tmatrix (Typed.common_dtype s a r sp d) m)).
Proof.
  rewrite typed_encode, encode_amap.
  destruct (_encode_sarses _ _ _ _ _); reflexivity.
Qed.

Lemma batch_of_amap (f : value -> value) (n : nat) (k : Z)
    (x : ndarray value) :
  batch_of n k x -> batch_of n k (amap f x).
Proof.
  intros (Hw & Hh & Hz). unfold batch_of, wf_ndarray, amap, size in *.
  cbn [shape data]. rewrite length_map. auto.
Qed.

Lemma valid_batch_amap (f : value -> value) b (n : nat)
    (s a r sp d : ndarray value) :
  valid_batch b n s a r sp d ->
  valid_batch b n (amap f s) (amap f a) (amap f r) (amap f sp) (amap f d).
Proof.
  intros (Hn & Hs & Ha & Hr & Hsp & Hd).
  unfold valid_batch. split; [exact Hn|].
  split; [now apply batch_of_amap|]. split; [now apply batch_of_amap|].
  split; [now apply batch_of_amap|]. split; now apply batch_of_amap.
Qed.

Lemma amap_well_typed x :
  Typed.well_typed x -> amap (astype (Typed.dt x)) (Typed.arr x) = Typed.arr x.
Proof.
  unfold Typed.well_typed, amap. intros H.
  destruct (Typed.arr x) as [shp l]. cbn [shape data] in *. f_equal.
  induction H as [|v l Hv _ IH]; [reflexivity|].
  cbn [map]. now rewrite IH, (astype_same _ _ Hv).
Qed.

Lemma result_type_same t : result_type t t = t.
Proof. destruct t; reflexivity. Qed.

(** C1 (amended).  Round trip: for a buffer configured with shapes of
    positive dimensions and a valid batch of [n >= 1] examples (the five
    arrays have the leading dimension [n] and per-example element counts
    equal to the products of the configured shapes), [_encode_sarses]
    returns a matrix and [_decode_sarses] of that matrix returns the five
    arrays converted to their common dtype, element for element, each with
    the shape [(n,) + configured shape]; when the five arrays have one
    dtype, it returns the five arrays themselves, reshaped. *)
Theorem decode_encode_roundtrip b (n : nat) s a r sp d :
  configured b ->
  valid_batch b n (Typed.arr s) (Typed.arr a) (Typed.arr r) (Typed.arr sp)
    (Typed.arr d) ->
  let T := Typed.common_dtype s a r sp d in
  (exists m,
     Typed._encode_sarses s a r sp d = Ok m /\
     Typed._decode_sarses b m
     = Ok (Typed.converted T n (_s_shape b) s,
           Typed.converted T n (_a_shape b) a,
           Typed.converted T n (_r_shape b) r,
           Typed.converted T n (_s_shape b) sp,
           Typed.converted T n (_d_shape b) d)) /\
  (Typed.dt a = Typed.dt s -> Typed.dt r = Typed.dt s ->
   Typed.dt sp = Typed.dt s -> Typed.dt d = Typed.dt s ->
   Typed.well_typed s -> Typed.well_typed a -> Typed.well_typed r ->
   Typed.well_typed sp -> Typed.well_typed d ->
   exists m,
     Typed._encode_sarses s a r sp d = Ok m /\
     Typed._decode_sarses b m
     = Ok (Typed.treshaped n (_s_shape b) s, Typed.treshaped n (_a_shape b) a,
           Typed.treshaped n (_r_shape b) r, Typed.treshaped n (_s_shape b) sp,
           Typed.treshaped n (_d_shape b) d)).
Proof.
  intros Hcfg Hvalid T.
  assert (Hconv : exists m,
     Typed._encode_sarses s a r sp d = Ok m /\
     Typed._decode_sarses b m
     = Ok (Typed.converted T n (_s_shape b) s,
           Typed.converted T n (_a_shape b) a,
           Typed.converted T n (_r_shape b) r,
           Typed.converted T n (_s_shape b) sp,
           Typed.converted T n (_d_shape b) d)).
  { destruct (roundtrip_rows b n _ _ _ _ _ Hcfg
                (valid_batch_amap (astype T) b n _ _ _ _ _ Hvalid))
      as (m & E & D).
    exists (Typed.mk_tmatrix T m). split.
    - rewrite typed_encode_converted. fold T. now rewrite E.
    - rewrite typed_decode. cbn [Typed.mat Typed.mdt]. now rewrite D. }
  split; [exact Hconv|].
  intros Ea Er Esp Ed Ws Wa Wr Wsp Wd.
  destruct Hconv as (m & E & D). exists m. split; [exact E|].
  rewrite D.
  assert (ET : T = Typed.dt s).
  { unfold T, Typed.common_dtype. cbn [fold_left].
    rewrite Ea, Er, Esp, Ed. now rewrite !result_type_same. }
  assert (Cs : amap (astype (Typed.dt s)) (Typed.arr s) = Typed.arr s)
    by now apply amap_well_typed.
  assert (Ca : amap (astype (Typed.dt s)) (Typed.arr a) = Typed.arr a)
    by (rewrite <- Ea; now apply amap_well_typed).
  assert (Cr : amap (astype (Typed.dt s)) (Typed.arr r) = Typed.arr r)
    by (rewrite <- Er; now apply amap_well_typed).
  assert (Csp : amap (astype (Typed.dt s)) (Typed.arr sp) = Typed.arr sp)
    by (rewrite <- Esp; now apply amap_well_typed).
  assert (Cd : amap (astype (Typed.dt s)) (Typed.arr d) = Typed.arr d)
    by (rewrite <- Ed; now apply amap_well_typed).
  unfold Typed.converted, Typed.treshaped.
  rewrite ET, Cs, Ca, Cr, Csp, Cd, Ea, Er, Esp, Ed. reflexivity.
Qed.

Lemma fits_tmap (f : value -> value) b (tr : transition value) :
  fits b tr -> fits b (tmap f tr).
Proof.
  unfold fits, wf_ndarray, tmap, amap, size.
  cbn [t_s t_a t_r t_sp t_d shape data]. rewrite !length_map. auto.
Qed.

Lemma fits_as_float64 b (es : list Typed.example) :
  Forall (Typed.fits b) es -> Forall (fits b) (map Typed.as_float64 es).
Proof.
  intros H. apply Forall_map. revert H. apply Forall_impl.
  intros e He. now apply fits_tmap.
Qed.

Lemma incl_map_preimage {A B : Type} (f : A -> B) (l : list B)
    (w : list A) :
  incl l (map f w) -> exists l0, l = map f l0 /\ incl l0 w.
Proof.
  induction l as [|y l IH]; intros H.
  - exists []. split; [reflexivity | intros x []].
  - destruct IH as (l0 & -> & Hl0).
    { intros x Hx. apply H. now right. }
    assert (Hy : In y (map f w)) by (apply H; now left).
    apply in_map_iff in Hy as (x & <- & Hx).
    exists (x :: l0). split; [reflexivity|].
    intros z [<- | Hz]; [exact Hx | now apply Hl0].
Qed.

(** C2 (amended).  FIFO eviction: from a new buffer of capacity [c] whose
    action and reward shapes hold one element, pushing [c + k]
    transitions one at a time with [store_example] succeeds; afterwards the
    buffer is ready, the rows of the store are the records of the last [c]
    transitions pushed, converted to [float64], in the order of the pushes
    (row 0 the oldest retained), and every [sample n], [0 <= n <= c],
    returns the arrays of [n] transitions that are all among those last
    [c]. *)
Theorem fifo_eviction (c : Z) (ss sa sr : list Z) b0
    (es : list Typed.example) (k : nat) :
  __init__ zero64 c ss sa sr = Ok b0 ->
  positive_shape ss -> positive_shape sa -> positive_shape sr ->
  prod sa = 1 -> prod sr = 1 ->
  Forall (Typed.fits b0) es ->
  length es = (Z.to_nat c + k)%nat ->
  exists b',
    Typed.store_all es b0 = (b', Ok tt) /\
    should_sample b' = true /\
    mrows (_queue b') = map Typed.record_of (skipn k es) /\
    forall (n : Z) (perm : list nat),
      0 <= n <= c -> Permutation perm (seq 0 (Z.to_nat c)) ->
      exists picked,
        length picked = Z.to_nat n /\ incl picked (skipn k es) /\
        Typed.sample n perm b' = (b', Ok (Typed.batch b' picked)).
Proof.
  intros Hinit Hps Hpa Hpr Ha1 Hr1 Hfits Hlen.
  destruct (fifo_rows zero64 c ss sa sr b0 (map Typed.as_float64 es) k
              Hinit Hps Hpa Hpr Ha1 Hr1 (fits_as_float64 _ _ Hfits))
    as (b' & E & Hready & Hrows & Hsample);
    [now rewrite length_map|].
  exists b'. split; [now rewrite typed_store_all|].
  split; [exact Hready|]. split.
  - rewrite Hrows, skipn_map, map_map. reflexivity.
  - intros n perm Hn Hperm.
    destruct (Hsample n perm Hn Hperm) as (picked' & Hl & Hin & Es).
    rewrite skipn_map in Hin.
    destruct (incl_map_preimage _ _ _ Hin) as (picked & -> & Hin').
    exists picked. split; [now rewrite length_map in Hl|].
    split; [exact Hin'|].
    rewrite typed_sample, Es. reflexivity.
Qed.

Lemma leads_amap (f : value -> value) (n k : nat) (x0 : ndarray value) :
  leads n k x0 -> leads n k (amap f x0).
Proof. intros H. exact H. Qed.

Lemma example_size_leads x (n : nat) :
  Typed.tshape0 x = Ok n -> leads n (Typed.example_size x) (Typed.arr x).
Proof. apply shape0_leads. Qed.

(** X2.  The outcome of [_encode_sarses] on five arrays of at least one
    dimension is decided by their leading dimensions: when they are not
    all equal it raises [ReplayBufferError]; when they are all 0 it raises
    [ValueError] (from [np.reshape]); when they are all [n >= 1] it returns
    the matrix, of the common dtype of the five arrays, whose row [i] is
    example [i] of the states, of the actions, of the rewards, of the flags
    and of the next states, in this order, converted to that dtype. *)
Theorem encode_outcome s a r sp d (ns na nr nsp nd : nat) :
  Typed.tshape0 s = Ok ns -> Typed.tshape0 a = Ok na ->
  Typed.tshape0 r = Ok nr -> Typed.tshape0 sp = Ok nsp ->
  Typed.tshape0 d = Ok nd ->
  (~ (na = ns /\ nr = ns /\ nsp = ns /\ nd = ns) ->
   Typed._encode_sarses s a r sp d = Raise ReplayBufferError)
  /\ (na = ns /\ nr = ns /\ nsp = ns /\ nd = ns -> ns = 0%nat ->
      Typed._encode_sarses s a r sp d = Raise ValueError)
  /\ (na = ns /\ nr = ns /\ nsp = ns /\ nd = ns -> (1 <= ns)%nat ->
      let T := Typed.common_dtype s a r sp d in
      Typed._encode_sarses s a r sp d
      = Ok (Typed.mk_tmatrix T
              (mk_matrix
                 (Typed.example_size s + Typed.example_size a
                  + Typed.example_size r + Typed.example_size d
                  + Typed.example_size sp)
                 (hcat (hcat (hcat (hcat (Typed.examples T ns s)
                                         (Typed.examples T ns a))
                                   (Typed.examples T ns r))
                             (Typed.examples T ns d))
                       (Typed.examples T ns sp))))).
Proof.
  intros Hs Ha Hr Hsp Hd.
  destruct (encode_cases _ _ _ _ _ ns na nr nsp nd Hs Ha Hr Hsp Hd)
    as (C1 & C2 & _).
  split; [|split].
  - intros Hne. now rewrite typed_encode, (C1 Hne).
  - intros He H0. now rewrite typed_encode, (C2 He H0).
  - intros (-> & -> & -> & ->) Hn T.
    rewrite typed_encode_converted. fold T.
    rewrite (encode_rows ns (Typed.example_size s) (Typed.example_size a)
               (Typed.example_size r) (Typed.example_size sp)
               (Typed.example_size d));
      try (apply leads_amap, example_size_leads; assumption);
      try assumption.
    reflexivity.
Qed.

(** X11.  While fewer transitions than the capacity have been pushed one at
    a time into a new buffer whose action and reward shapes hold one
    element, the store holds rows of [0.0] in front of the records pushed,
    which are converted to [float64]; the gate is closed, and every call of
    [sample] raises [ReplayBufferError] and leaves the object as it is. *)
Theorem partial_fill (c : Z) (ss sa sr : list Z) b0
    (es : list Typed.example) :
  __init__ zero64 c ss sa sr = Ok b0 ->
  positive_shape ss -> prod sa = 1 -> prod sr = 1 ->
  Forall (Typed.fits b0) es ->
  Z.of_nat (length es) < c ->
  exists b',
    Typed.store_all es b0 = (b', Ok tt) /\
    should_sample b' = false /\
    mrows (_queue b')
    = repeat (repeat zero64 (Z.to_nat (_sars_size b0)))
        (Z.to_nat c - length es)
      ++ map Typed.record_of es /\
    forall (n : Z) (perm : list nat),
      Typed.sample n perm b' = (b', Raise ReplayBufferError).
Proof.
  intros Hinit Hps Ha1 Hr1 Hfits Hlen.
  destruct (partial_fill_rows zero64 c ss sa sr b0 (map Typed.as_float64 es)
              Hinit Hps Ha1 Hr1 (fits_as_float64 _ _ Hfits))
    as (b' & E & Hgate & Hrows & Hsample);
    [now rewrite length_map|].
  exists b'. split; [now rewrite typed_store_all|].
  split; [exact Hgate|]. split.
  - rewrite Hrows, length_map, map_map. reflexivity.
  - intros n perm. rewrite typed_sample, Hsample. reflexivity.
Qed.

Lemma stack_amap (f : value -> value) (shp : list Z)
    (rows : list (list value)) :
  amap f (stack shp rows) = stack shp (map (map f) rows).
Proof.
  unfold amap, stack. cbn [shape data].
  now rewrite length_map, concat_map.
Qed.

Lemma batch_tmap (f : value -> value) b (ts : list (transition value)) :
  batch b (map (tmap f) ts)
  = (amap f (stack (_s_shape b) (map (fun tr => data (t_s tr)) ts)),
     amap f (stack (_a_shape b) (map (fun tr => data (t_a tr)) ts)),
     amap f (stack (_r_shape b) (map (fun tr => data (t_r tr)) ts)),
     amap f (stack (_s_shape b) (map (fun tr => data (t_sp tr)) ts)),
     amap f (stack [] (map (fun tr => data (t_d tr)) ts))).
Proof.
  unfold batch. rewrite !stack_amap, !map_map. reflexivity.
Qed.

(** X12.  On a buffer in a state in which [store_example] accepts a
    fitting transition (action and reward shapes of one element, a
    non-empty queue of records), one call of [store_example_batch] on the
    five arrays, of whatever dtypes, that hold [1 <= n <= capacity]
    transitions leaves the queue that [n] calls of [store_example] leave:
    the rows from [n] on followed by the records of the batch converted to
    [float64], in order.  The gate is open after the one iff it is open
    after the others; the fill counter of the batch call is at least that
    of the single calls (it grows by [n] at once and may exceed the
    capacity). *)
Theorem batch_push_as_singles b (ds da dr dsp dd : dtype)
    (ts : list (transition value)) :
  configured b -> pushable b -> Forall (fits b) ts ->
  (1 <= length ts <= nrows (_queue b))%nat ->
  let es := map (Typed.with_dtypes ds da dr dsp dd) ts in
  exists b1 b2,
    Typed.push (Typed.batch_arrays ds da dr dsp dd b ts) b = (b1, Ok tt) /\
    Typed.store_all es b = (b2, Ok tt) /\
    _queue b1 = _queue b2 /\
    mrows (_queue b1)
    = skipn (length ts) (mrows (_queue b)) ++ map Typed.record_of es /\
    should_sample b1 = should_sample b2 /\
    _contains b2 <= _contains b1.
Proof.
  intros Hcfg Hp Hfits Hn es.
  assert (Hes : map Typed.as_float64 es = map (tmap (astype float64)) ts).
  { unfold es. rewrite map_map. apply map_ext. intros [s a r sp d].
    reflexivity. }
  destruct (batch_push_rows b (map (tmap (astype float64)) ts) Hcfg Hp)
    as (b1 & b2 & E1 & E2 & Hq & Hrows & Hgate & Hcount).
  { apply Forall_map. revert Hfits. apply Forall_impl.
    intros tr. apply fits_tmap. }
  { now rewrite length_map. }
  exists b1, b2.
  split.
  - unfold Typed.push, Typed.batch_arrays, batch.
    rewrite typed_store_example_batch. cbn [Typed.arr].
    rewrite batch_tmap in E1. exact E1.
  - split; [now rewrite typed_store_all, Hes|].
    split; [exact Hq|]. split; [|split; assumption].
    rewrite Hrows, length_map. f_equal.
    unfold Typed.record_of. now rewrite <- Hes, map_map.
Qed.

End Dtypes.

(** * The further properties on concrete buffers *)

Ltac push_facts :=
  unfold pushable, record_width; shape_facts.

(** X3 at the empty arrays. *)
Lemma empty_batch_refused_witness :
  store_example_batch (table 0 2 []) (vector []) (vector []) (table 0 2 [])
    (vector []) full_buffer
  = (full_buffer, Raise ValueError).
Proof.
  apply (empty_batch_refused full_buffer); reflexivity.
Defined.

(** X4 at the store of the full buffer. *)
Lemma encode_decode_roundtrip_witness :
  exists s a r sp d,
    _decode_sarses full_buffer (_queue full_buffer) = Ok (s, a, r, sp, d) /\
    _encode_sarses s a r sp d = Ok (_queue full_buffer).
Proof.
  apply (encode_decode_roundtrip full_buffer (_queue full_buffer)).
  - shape_facts.
  - reflexivity.
  - repeat constructor.
  - unfold nrows. simpl. lia.
Defined.

(** X5 at the full buffer and a sample of two. *)
Lemma sample_shapes_witness :
  exists s a r sp d,
    sample 2 [1; 0; 2; 3]%nat full_buffer = (full_buffer, Ok (s, a, r, sp, d))
    /\ shape s = [2; 2]%nat /\ shape a = [2]%nat /\ shape r = [2]%nat
    /\ shape sp = [2; 2]%nat /\ shape d = [2]%nat.
Proof.
  apply (sample_shapes full_buffer 2 [1; 0; 2; 3]%nat).
  - apply full_buffer_inv.
  - reflexivity.
  - simpl; lia.
  - apply perm_swap.
Defined.

(** X6 at the full buffer. *)
Lemma sample_whole_store_witness :
  exists rows,
    Permutation rows (mrows (_queue full_buffer)) /\
    sample 4 [1; 0; 2; 3]%nat full_buffer
    = (full_buffer, Ok (unpack full_buffer rows)).
Proof.
  apply (sample_whole_store full_buffer [1; 0; 2; 3]%nat).
  - apply full_buffer_inv.
  - reflexivity.
  - apply perm_swap.
Defined.

(** X7 at the full buffer and one row. *)
Lemma pop_keeps_tail_witness :
  exists q',
    _pop 1 full_buffer = (with_queue full_buffer q', Ok tt) /\
    ncols q' = 7%nat /\ nrows q' = 4%nat /\
    (forall i, (i + 1 < 4)%nat ->
               nth i (mrows q') []
               = nth (i + 1) (mrows (_queue full_buffer)) []) /\
    (forall i, (4 - 1 <= i)%nat ->
               nth i (mrows q') [] = nth i (mrows (_queue full_buffer)) []).
Proof.
  apply (pop_keeps_tail full_buffer 1). lia.
Defined.

(** X8 at a buffer of capacity 4, after a push of two transitions and a
    push of three. *)
Lemma configuration_fixed_witness :
  let b := run_pushes [two_markers; three_markers] (new_buffer 4) in
  _size b = 4 /\ _s_shape b = [2] /\ _a_shape b = [] /\ _r_shape b = [] /\
  _sars_size b = prod [2] * 2 + prod [] + prod [] + 1 /\
  nrows (_queue b) = Z.to_nat 4 /\
  ncols (_queue b) = Z.to_nat (prod [2] * 2 + prod [] + prod [] + 1).
Proof.
  apply (configuration_fixed 0 4 [2] [] [] (new_buffer 4)
           [two_markers; three_markers]).
  - reflexivity.
  - shape_facts.
  - shape_facts.
  - shape_facts.
Defined.

(** X9 at a batch of three transitions and a buffer of capacity 2. *)
Lemma batch_over_capacity_witness :
  snd (store_example_batch (table 3 2 [1; 1; 2; 2; 3; 3]) (vector [1; 2; 3])
         (vector [10; 20; 30]) (table 3 2 [2; 2; 3; 3; 4; 4])
         (vector [0; 0; 0]) (new_buffer 2)) = Raise ValueError /\
  _queue (fst (store_example_batch (table 3 2 [1; 1; 2; 2; 3; 3])
                 (vector [1; 2; 3]) (vector [10; 20; 30])
                 (table 3 2 [2; 2; 3; 3; 4; 4]) (vector [0; 0; 0])
                 (new_buffer 2)))
  = _queue (new_buffer 2) /\
  _contains (fst (store_example_batch (table 3 2 [1; 1; 2; 2; 3; 3])
                    (vector [1; 2; 3]) (vector [10; 20; 30])
                    (table 3 2 [2; 2; 3; 3; 4; 4]) (vector [0; 0; 0])
                    (new_buffer 2)))
  = (if should_sample (new_buffer 2) then _contains (new_buffer 2)
     else _contains (new_buffer 2) + Z.of_nat 3).
Proof.
  apply (batch_over_capacity (new_buffer 2) 3 2 2).
  - unfold nrows. simpl. lia.
  - split; reflexivity.
  - split; reflexivity.
  - split; reflexivity.
  - split; reflexivity.
  - split; reflexivity.
Defined.

(** X10 at the capacity 4 and five markers. *)
Lemma single_push_counter_witness :
  exists b',
    store_all (map marker [0; 1; 2; 3; 4]) (new_buffer 4) = (b', Ok tt) /\
    _contains b' = Z.min 5 4.
Proof.
  apply (single_push_counter 0 4 [2] [] [] (new_buffer 4)
           (map marker [0; 1; 2; 3; 4])).
  - reflexivity.
  - lia.
  - shape_facts.
  - reflexivity.
  - reflexivity.
  - shape_facts.
Defined.

(** X13 at states of shape [(2,)]. *)
Lemma zero_capacity_buffer_witness :
  should_sample (new_buffer 0) = true /\
  forall t, fits (new_buffer 0) t ->
            store_transition t (new_buffer 0) = (new_buffer 0, Ok tt).
Proof.
  apply (zero_capacity_buffer 0 [2] [] [] (new_buffer 0)).
  - reflexivity.
  - shape_facts.
  - reflexivity.
  - reflexivity.
Defined.

(** * The properties with dtypes on concrete buffers *)

Ltac typed_facts :=
  unfold Typed.fits, Typed.well_typed, pushable, record_width;
  shape_facts.

Lemma new_buffer64_init : __init__ zero64 4 [2] [] [] = Ok (new_buffer64 4).
Proof. reflexivity. Qed.

(** C1 (amended) at a batch of two transitions with [int64] states and
    actions, [float64] rewards and [bool] flags, and at a batch of
    [float64] arrays. *)
Lemma decode_encode_roundtrip_witness :
  (exists m,
     Typed._encode_sarses (ints [2; 2]%nat [1; 1; 2; 2]) (ints [2%nat] [1; 2])
       (floats [2%nat] [10; 20]) (ints [2; 2]%nat [2; 2; 3; 3])
       (bools [2%nat] [false; true]) = Ok m /\
     Typed._decode_sarses (new_buffer64 4) m
     = Ok (floats [2; 2]%nat [1; 1; 2; 2], floats [2%nat] [1; 2],
           floats [2%nat] [10; 20], floats [2; 2]%nat [2; 2; 3; 3],
           floats [2%nat] [0; 1])) /\
  (exists m,
     Typed._encode_sarses (floats [2; 2]%nat [1; 1; 2; 2])
       (floats [2%nat] [1; 2]) (floats [2%nat] [10; 20])
       (floats [2; 2]%nat [2; 2; 3; 3]) (floats [2%nat] [0; 1]) = Ok m /\
     Typed._decode_sarses (new_buffer64 4) m
     = Ok (floats [2; 2]%nat [1; 1; 2; 2], floats [2%nat] [1; 2],
           floats [2%nat] [10; 20], floats [2; 2]%nat [2; 2; 3; 3],
           floats [2%nat] [0; 1])).
Proof.
  split.
  - apply (proj1 (decode_encode_roundtrip (new_buffer64 4) 2
                    (ints [2; 2]%nat [1; 1; 2; 2]) (ints [2%nat] [1; 2])
                    (floats [2%nat] [10; 20]) (ints [2; 2]%nat [2; 2; 3; 3])
                    (bools [2%nat] [false; true])
                    ltac:(shape_facts) ltac:(shape_facts))).
  - apply (proj2 (decode_encode_roundtrip (new_buffer64 4) 2
                    (floats [2; 2]%nat [1; 1; 2; 2]) (floats [2%nat] [1; 2])
                    (floats [2%nat] [10; 20]) (floats [2; 2]%nat [2; 2; 3; 3])
                    (floats [2%nat] [0; 1])
                    ltac:(shape_facts) ltac:(shape_facts)));
      try reflexivity; typed_facts.
Defined.

(** C1 as stated fails.  Two valid batches that differ in an [int64] state,
    [2^53 + 1] for [2^53], and have a [float64] reward are encoded into the
    same matrix, so that decoding returns the same arrays for both: the
    state holds the [float64] [2^53] and not [2^53 + 1].  And an empty
    batch is not encoded at all. *)
Lemma mixed_dtypes_not_reproduced :
  let s1 := ints [1; 2]%nat [2 ^ 53 + 1; 0] in
  let s2 := ints [1; 2]%nat [2 ^ 53; 0] in
  let a := ints [1%nat] [1] in
  let r := floats [1%nat] [1] in
  let sp := ints [1; 2]%nat [0; 0] in
  let d := bools [1%nat] [false] in
  let b := new_buffer64 4 in
  configured b /\
  valid_batch b 1 (Typed.arr s1) (Typed.arr a) (Typed.arr r) (Typed.arr sp)
    (Typed.arr d) /\
  valid_batch b 1 (Typed.arr s2) (Typed.arr a) (Typed.arr r) (Typed.arr sp)
    (Typed.arr d) /\
  Typed.well_typed s1 /\ Typed.well_typed s2 /\ s1 <> s2 /\
  (exists m,
     Typed._encode_sarses s1 a r sp d = Ok m /\
     Typed._encode_sarses s2 a r sp d = Ok m /\
     Typed._decode_sarses b m
     = Ok (floats [1; 2]%nat [2 ^ 53; 0], floats [1%nat] [1],
           floats [1%nat] [1], floats [1; 2]%nat [0; 0],
           floats [1%nat] [0])) /\
  Typed._encode_sarses (ints [0; 2]%nat []) (ints [0%nat] [])
    (floats [0%nat] []) (ints [0; 2]%nat []) (bools [0%nat] [])
  = Raise ValueError.
Proof.
  intros s1 s2 a r sp d b.
  split; [shape_facts|]. split; [shape_facts|]. split; [shape_facts|].
  split; [typed_facts|]. split; [typed_facts|].
  split; [discriminate|]. split; [|reflexivity].
  eexists. split; [reflexivity|]. split; reflexivity.
Qed.

(** C2 (amended) at the capacity 4 and the five markers 0..4: the store
    holds the markers 1..4, converted, and sampling returns only those. *)
Lemma fifo_eviction_witness :
  exists b',
    Typed.store_all (map typed_marker [0; 1; 2; 3; 4]) (new_buffer64 4)
    = (b', Ok tt) /\
    should_sample b' = true /\
    mrows (_queue b') = map Typed.record_of (map typed_marker [1; 2; 3; 4]) /\
    forall (n : Z) (perm : list nat),
      0 <= n <= 4 -> Permutation perm (seq 0 4) ->
      exists picked,
        length picked = Z.to_nat n /\
        incl picked (map typed_marker [1; 2; 3; 4]) /\
        Typed.sample n perm b' = (b', Ok (Typed.batch b' picked)).
Proof.
  apply (fifo_eviction 4 [2] [] [] (new_buffer64 4)
           (map typed_marker [0; 1; 2; 3; 4]) 1).
  - reflexivity.
  - shape_facts.
  - shape_facts.
  - shape_facts.
  - reflexivity.
  - reflexivity.
  - typed_facts.
  - reflexivity.
Defined.

(** C2 as stated fails.  On a buffer whose actions have the shape [(2,)],
    no transition of the configured shapes can be pushed: every call of
    [store_example] raises [ReplayBufferError] and the store keeps its
    zeros.  And on a buffer with scalar actions and rewards the rows are
    not the transitions pushed but their conversions to [float64]: the
    transitions with the [int64] states [2^53] and [2^53 + 1], pushed into
    a new buffer, leave the same store. *)
Lemma pushes_refused_or_converted :
  let b := new_buffer_vector_actions 2 in
  let t := fun i : Z =>
             store_example (vector [i; i]) (vector [i; i]) (scalar (10 * i))
               (vector [i + 1; i + 1]) (scalar 0) in
  let e := fun i : Z =>
             Typed.mk_example (ints [2%nat] [i; 0]) (ints [] [1])
               (floats [] [1]) (ints [2%nat] [0; 0]) (bools [] [false]) in
  __init__ 0 2 [2] [2] [] = Ok b /\
  t 0 b = (b, Raise ReplayBufferError) /\
  t 1 b = (b, Raise ReplayBufferError) /\
  t 2 b = (b, Raise ReplayBufferError) /\
  Typed.fits (new_buffer64 2) (e (2 ^ 53)) /\
  Typed.fits (new_buffer64 2) (e (2 ^ 53 + 1)) /\
  e (2 ^ 53) <> e (2 ^ 53 + 1) /\
  Typed.store_all [e (2 ^ 53)] (new_buffer64 2)
  = Typed.store_all [e (2 ^ 53 + 1)] (new_buffer64 2) /\
  snd (Typed.store_all [e (2 ^ 53)] (new_buffer64 2)) = Ok tt.
Proof.
  intros b t e.
  split; [reflexivity|]. split; [reflexivity|]. split; [reflexivity|].
  split; [reflexivity|]. split; [typed_facts|]. split; [typed_facts|].
  split; [discriminate|]. split; reflexivity.
Qed.

(** X2 at a batch of two transitions with [int64] states and actions,
    [float64] rewards and [bool] flags. *)
Lemma encode_outcome_witness :
  Typed._encode_sarses (ints [2; 2]%nat [1; 1; 2; 2]) (ints [2%nat] [1; 2])
    (floats [2%nat] [10; 20]) (ints [2; 2]%nat [2; 2; 3; 3])
    (bools [2%nat] [false; true])
  = Ok (Typed.mk_tmatrix float64
          (mk_matrix 7
             (map (map (fun z => VFloat (float_of_Z z)))
                [[1; 1; 1; 10; 0; 2; 2]; [2; 2; 2; 20; 1; 3; 3]]))).
Proof.
  apply (proj2 (proj2 (encode_outcome (ints [2; 2]%nat [1; 1; 2; 2])
                         (ints [2%nat] [1; 2]) (floats [2%nat] [10; 20])
                         (ints [2; 2]%nat [2; 2; 3; 3])
                         (bools [2%nat] [false; true]) 2 2 2 2 2
                         eq_refl eq_refl eq_refl eq_refl eq_refl))).
  - repeat split.
  - lia.
Defined.

(** X11 at the capacity 4 and two markers. *)
Lemma partial_fill_witness :
  exists b',
    Typed.store_all (map typed_marker [0; 1]) (new_buffer64 4) = (b', Ok tt) /\
    should_sample b' = false /\
    mrows (_queue b')
    = [repeat zero64 7; repeat zero64 7]
      ++ map Typed.record_of (map typed_marker [0; 1]) /\
    forall (n : Z) (perm : list nat),
      Typed.sample n perm b' = (b', Raise ReplayBufferError).
Proof.
  apply (partial_fill 4 [2] [] [] (new_buffer64 4) (map typed_marker [0; 1])).
  - reflexivity.
  - shape_facts.
  - reflexivity.
  - reflexivity.
  - typed_facts.
  - simpl. lia.
Defined.

(** X12 at the capacity 4 and the markers 1, 2, held in [int64] arrays of
    states and actions, a [float64] array of rewards and a [bool] array of
    flags. *)
Lemma batch_push_as_singles_witness :
  let ts := map Typed.untyped (map typed_marker [1; 2]) in
  let es := map typed_marker [1; 2] in
  exists b1 b2,
    Typed.push (Typed.batch_arrays int64 int64 float64 int64 bool_
                  (new_buffer64 4) ts) (new_buffer64 4) = (b1, Ok tt) /\
    Typed.store_all es (new_buffer64 4) = (b2, Ok tt) /\
    _queue b1 = _queue b2 /\
    mrows (_queue b1)
    = skipn 2 (mrows (_queue (new_buffer64 4))) ++ map Typed.record_of es /\
    should_sample b1 = should_sample b2 /\
    _contains b2 <= _contains b1.
Proof.
  apply (batch_push_as_singles (new_buffer64 4) int64 int64 float64 int64
           bool_ (map Typed.untyped (map typed_marker [1; 2]))).
  - shape_facts.
  - typed_facts.
  - shape_facts.
  - unfold nrows. simpl. lia.
Defined.
